(** * Workana scraper and Slack notifier: a shallow embedding

    The development follows [scrapers/workana_scraper.py],
    [utils/slack_notifier.py] and [cleanup_db.py].  The browser (Playwright), the listing site,
    the HTML parser of [parsers/job_parser.py], the constants of
    [config/settings.py] and the HTTP client are collaborators of the
    modelled code: they appear as parameters and as an explicit world that
    answers every call with a value or with a raised exception.  So do the
    built-ins of the interpreter whose answer depends on its Unicode tables
    and on its settings. *)

From Stdlib Require Import ZArith Ascii String Lia.
From stdpp Require Import base option list gmap strings pretty.

Local Open Scope Z_scope.

(** ** Python values *)

(** The exception classes the source distinguishes in its handlers. *)
Inductive exn :=
  | PlaywrightTimeoutError      (* playwright.sync_api.TimeoutError *)
  | RequestsTimeout             (* requests.exceptions.Timeout *)
  | RequestsConnectionError     (* requests.exceptions.ConnectionError *)
  | RequestException            (* requests.exceptions.RequestException *)
  | OtherException.             (* any other subclass of Exception *)

(** The outcome of a call into a collaborator: a value, or a raise. *)
Inductive result (A : Type) :=
  | Ok (a : A)
  | Raise (e : exn).
Arguments Ok {A} a.
Arguments Raise {A} e.

(** Truthiness of the values the source tests with [if x] / [not x]. *)
Definition truthy_str (s : option string) : bool :=
  match s with
  | Some (String _ _) => true
  | _ => false               (* None and '' are falsy *)
  end.

Definition truthy_int (n : option Z) : bool :=
  match n with
  | Some n => negb (n =? 0)
  | None => false
  end.

Definition truthy_bool (b : option bool) : bool :=
  match b with
  | Some true => true
  | _ => false
  end.

(** [x or d] on an optional string. *)
Definition str_or (s : option string) (d : string) : string :=
  match s with
  | Some (String a r) => String a r
  | _ => d
  end.

(** A key that is read with a default of the reader's own,
    [job.get(key, default)]: the default is what an absent key gives, while
    a key that holds [None] gives [None]. *)
Inductive entry :=
  | Absent
  | Holds (value : option string).

(** [job.get(key, default)] *)
Definition get_or (e : entry) (default : string) : option string :=
  match e with
  | Absent => Some default
  | Holds value => value
  end.

(** A string or [None] inside an f-string: [f"{value}"]. *)
Definition formatted (value : option string) : string :=
  match value with
  | Some s => s
  | None => "None"
  end.

(** The job dictionary built by the parser.  A field of type [option] is
    [None] when the key is absent from the dictionary or holds [None] (what
    [dict.get(key)] reports as [None] in both cases); the code reads the
    title with a default, so its field tells the two apart. *)
Record job := {
  job_id : option string;                   (* 'id' *)
  client_name : option string;              (* 'client_name' *)
  title : entry;                            (* 'title' *)
  url : option string;                      (* 'url' *)
  budget : option string;                   (* 'budget' *)
  client_country : option string;           (* 'client_country' *)
  client_payment_verified : option bool;    (* 'client_payment_verified' *)
}.

(** ** The text built-ins of the interpreter *)

(** [text.strip()], [text.isdigit()] and [int(text)], which
    [get_total_pages] applies to the text of a page link.  What they answer
    depends on the Unicode tables of the interpreter (which characters are
    white space, which are digits) and on its limit on the number of digits
    of a number, beyond which [int] raises [ValueError]; they are taken as
    given, like the browser. *)
Record builtins := {
  strip : string → string;
  isdigit : string → bool;
  int : string → result Z;
}.

(** ** Text helpers of [str] used by the source (ASCII text) *)

Module PyStr.

(** [str.isdigit] on a character. *)
Definition digit_of (a : ascii) : option Z :=
  Z.of_nat <$> Ascii.is_nat a.

(** Whitespace removed by [str.strip()] (the ASCII part of it). *)
Definition is_space (a : ascii) : bool :=
  match a with
  | "009" | "010" | "011" | "012" | "013"
  | "028" | "029" | "030" | "031" | " " => true
  | _ => false
  end%char.

Fixpoint lstrip (s : string) : string :=
  match s with
  | String a r => if is_space a then lstrip r else s
  | EmptyString => EmptyString
  end.

Definition rstrip (s : string) : string :=
  String.rev (lstrip (String.rev s)).

Definition strip (s : string) : string := rstrip (lstrip s).

Fixpoint all_digits (s : string) : bool :=
  match s with
  | EmptyString => true
  | String a r => bool_decide (is_Some (digit_of a)) && all_digits r
  end.

(** [str.isdigit()]: at least one character, and all of them digits. *)
Definition isdigit (s : string) : bool :=
  match s with
  | EmptyString => false
  | _ => all_digits s
  end.

Fixpoint int_go (acc : Z) (s : string) : Z :=
  match s with
  | EmptyString => acc
  | String a r => int_go (10 * acc + default 0 (digit_of a)) r
  end.

(** [sys.get_int_max_str_digits()], as the interpreter starts with it. *)
Definition max_str_digits : nat := 4300.

(** [int(text)] on a text for which [isdigit] holds: [ValueError] when the
    text has more digits than the limit. *)
Definition int (s : string) : result Z :=
  if (max_str_digits <? String.length s)%nat then Raise OtherException
  else Ok (int_go 0 s).

(** [str.startswith]. *)
Definition startswith (s p : string) : bool := String.prefix p s.

(** [str.join]. *)
Fixpoint join (sep : string) (parts : list string) : string :=
  match parts with
  | [] => ""
  | [p] => p
  | p :: rest => p +:+ sep +:+ join sep rest
  end.

End PyStr.

(** The built-ins as they read ASCII text, for the examples.  On a text
    with other characters (a no-break space, an Arabic-Indic digit) this is
    not what the interpreter answers; the properties below hold for every
    [builtins] and rest on none in particular. *)
Definition ascii_text : builtins :=
  {| strip := PyStr.strip; isdigit := PyStr.isdigit; int := PyStr.int |}.

(** ** Settings, site and browser *)

(** The constants imported from [config.settings] that the modelled code
    reads, and [urllib.parse.quote]. *)
Record settings := {
  BASE_URL : string;
  JOBS_URL : string;
  DEFAULT_CATEGORY : string;
  DEFAULT_LANGUAGE : string;
  MAX_PAGES : option Z;
  STOP_ON_KNOWN_JOB : bool;
  quote : string → string;
}.

(** What the browser exposes of a document: the answer of
    [query_selector(SELECTORS['pagination'])] (a raise, no element, or an
    element whose [query_selector_all(SELECTORS['pagination_pages'])] raises
    or lists links, each link answering [inner_text()]), and the answer of
    [query_selector_all(SELECTORS['job_item'])] (a raise, or elements, each
    answering [evaluate("element => element.outerHTML")]). *)
Record dom := {
  dom_pagination : result (option (result (list (result string))));
  dom_job_items : result (list (result string));
}.

(** What navigating to a URL does: the outcomes of [page.goto] and of
    [page.wait_for_selector], and the document shown afterwards. *)
Record page_load := {
  goto : result ();
  wait_for_selector : result ();
  document : dom;
}.

(** The collaborators of one run: the site, by URL, the parser
    [parse_job_element_from_html(job_html, base_url)], and the text built-ins
    of the interpreter the run is on. *)
Record world := {
  site : string → page_load;
  parse_job_element_from_html : string → string → result job;
  python : builtins;
}.

(** Calls made on the browser, in the order they are made. *)
Inductive call :=
  | CallGoto (url : string)
  | CallPagination
  | CallJobItems.

(** The state a run works on: the page the browser is at, the calls made so
    far, and the locals of [scrape] that outlive an iteration
    ([should_stop] is unbound until [scrape_page] first returns). *)
Record state := {
  shown : option page_load;
  calls : list call;
  all_jobs : list job;
  should_stop : option bool;
}.

Definition initial_state : state :=
  {| shown := None; calls := []; all_jobs := []; should_stop := None |}.

(** ** A monad for state, exceptions and fuel *)

(** A computation returns a value or raises, in a new state; [None] stands
    for a loop that ran out of fuel. *)
Definition E (A : Type) : Type := state → option (result A * state).

Global Instance E_ret : MRet E := λ A a s, Some (Ok a, s).

Global Instance E_bind : MBind E := λ A B f m s,
  match m s with
  | Some (Ok a, s') => f a s'
  | Some (Raise e, s') => Some (Raise e, s')
  | None => None
  end.

Definition raise {A} (e : exn) : E A := λ s, Some (Raise e, s).

Definition out_of_fuel {A} : E A := λ _, None.

(** [try: body  except Exception as e: handler e]. *)
Definition try_except {A} (body : E A) (handler : exn → E A) : E A := λ s,
  match body s with
  | Some (Ok a, s') => Some (Ok a, s')
  | Some (Raise e, s') => handler e s'
  | None => None
  end.

Definition lift {A} (r : result A) : E A := λ s, Some (r, s).

Definition gets {A} (f : state → A) : E A := λ s, Some (Ok (f s), s).

Definition modify (f : state → state) : E () := λ s, Some (Ok (), f s).

Definition log (c : call) : E () :=
  modify (λ s, {| shown := shown s; calls := calls s ++ [c];
                  all_jobs := all_jobs s; should_stop := should_stop s |}).

Definition navigate (p : page_load) : E () :=
  modify (λ s, {| shown := Some p; calls := calls s;
                  all_jobs := all_jobs s; should_stop := should_stop s |}).

(** [all_jobs.extend(jobs)] *)
Definition extend_all_jobs (jobs : list job) : E () :=
  modify (λ s, {| shown := shown s; calls := calls s;
                  all_jobs := all_jobs s ++ jobs; should_stop := should_stop s |}).

Definition assign_should_stop (b : bool) : E () :=
  modify (λ s, {| shown := shown s; calls := calls s;
                  all_jobs := all_jobs s; should_stop := Some b |}).

(** Entering [scrape]: the locals of the call are not bound yet. *)
Definition new_frame : E () :=
  modify (λ s, {| shown := shown s; calls := calls s;
                  all_jobs := []; should_stop := None |}).

Definition assign_all_jobs (jobs : list job) : E () :=
  modify (λ s, {| shown := shown s; calls := calls s;
                  all_jobs := jobs; should_stop := should_stop s |}).

(** Leaving the loop ([break], or the loop test failing). *)
Definition leave : E () := mret ().

(** [time.sleep]: real time is not part of the model. *)
Definition sleep : E () := mret ().

(** ** [WorkanaScraper] *)

Section WorkanaScraper.

Context (cfg : settings) (w : world).

(** [build_jobs_url] *)
Definition build_jobs_url (category language : option string) (page : Z)
  : string :=
  let category := str_or category (DEFAULT_CATEGORY cfg) in
  let language := str_or language (DEFAULT_LANGUAGE cfg) in
  let language_encoded := quote cfg language in
  let url := JOBS_URL cfg +:+ "?category=" +:+ category +:+ "&language="
             +:+ language_encoded +:+ "&publication=1d" in
  if 1 <? page then url +:+ "&page=" +:+ pretty page else url.

(** [self.page.goto(url, ...)] *)
Definition page_goto (url : string) : E () :=
  log (CallGoto url) ;;
  lift (goto (site w url)) ;;
  navigate (site w url).

(** [self.page.wait_for_selector(SELECTORS['job_container'], ...)] *)
Definition page_wait_for_selector : E () :=
  p ← gets shown;
  match p with
  | Some p => lift (wait_for_selector p)
  | None => raise PlaywrightTimeoutError
  end.

(** [load_page] *)
Definition load_page (url : string) : E bool :=
  try_except
    (page_goto url ;;
     page_wait_for_selector ;;
     sleep ;;
     mret true)
    (λ e, match e with
          | PlaywrightTimeoutError => mret false
          | _ => mret false
          end).

(** [scroll_page]: scrolling leaves the modelled document as it is, and
    whatever it raises is swallowed. *)
Definition scroll_page : E () := try_except (sleep ;; sleep) (λ _, mret ()).

(** The loop of [get_job_elements]: an element whose [evaluate] raises is
    skipped. *)
Fixpoint job_htmls_of (job_elements : list (result string)) : list string :=
  match job_elements with
  | [] => []
  | Ok html :: rest => html :: job_htmls_of rest
  | Raise _ :: rest => job_htmls_of rest
  end.

(** [self.page.query_selector_all(SELECTORS['job_item'])] *)
Definition page_query_job_items : E (list (result string)) :=
  log CallJobItems ;;
  p ← gets shown;
  match p with
  | Some p => lift (dom_job_items (document p))
  | None => mret []
  end.

(** [get_job_elements] *)
Definition get_job_elements : E (list string) :=
  try_except
    (job_elements ← page_query_job_items;
     mret (job_htmls_of job_elements))
    (λ _, mret []).

(** [self.page.query_selector(SELECTORS['pagination'])] *)
Definition page_query_pagination
  : E (option (result (list (result string)))) :=
  log CallPagination ;;
  p ← gets shown;
  match p with
  | Some p => lift (dom_pagination (document p))
  | None => mret None
  end.

(** The loop of [get_total_pages] over the page links: a link whose
    [inner_text()] or whose [int(text)] raises is skipped. *)
Fixpoint page_numbers_of (page_links : list (result string)) : list Z :=
  match page_links with
  | [] => []
  | Ok text :: rest =>
      let text := strip (python w) text in
      if isdigit (python w) text then
        match int (python w) text with
        | Ok page_number => page_number :: page_numbers_of rest
        | Raise _ => page_numbers_of rest
        end
      else page_numbers_of rest
  | Raise _ :: rest => page_numbers_of rest
  end.

(** [max(page_numbers) if page_numbers else 1] *)
Definition max_or_1 (page_numbers : list Z) : Z :=
  match page_numbers with
  | [] => 1
  | n :: rest => foldr Z.max n rest
  end.

(** [get_total_pages] *)
Definition get_total_pages : E Z :=
  try_except
    (pagination ← page_query_pagination;
     match pagination with
     | None => mret 1
     | Some pagination =>
         page_links ← lift pagination;
         match page_links with
         | [] => mret 1
         | _ => mret (max_or_1 (page_numbers_of page_links))
         end
     end)
    (λ _, mret 1).

(** The composite key of [scrape_page]:
    [f"{job_data.get('id')}|{job_data.get('client_name') or ''}"]. *)
Definition job_key (job_data : job) : string :=
  default "None" (job_id job_data) +:+ "|"
    +:+ str_or (client_name job_data) "".

(** The [for] loop of [scrape_page]; [jobs] is the list built so far. *)
Fixpoint scrape_items (existing_job_ids : gset string)
    (job_elements : list string) (jobs : list job) : list job * bool :=
  match job_elements with
  | [] => (jobs, false)
  | job_html :: rest =>
      match parse_job_element_from_html w job_html (BASE_URL cfg) with
      | Raise _ => scrape_items existing_job_ids rest jobs
      | Ok job_data =>
          if negb (truthy_str (job_id job_data))
          then scrape_items existing_job_ids rest jobs
          else
            let job_key := job_key job_data in
            if STOP_ON_KNOWN_JOB cfg
               && bool_decide (job_key ∈ existing_job_ids)
            then (jobs, true)
            else scrape_items existing_job_ids rest (jobs ++ [job_data])
      end
  end.

(** [scrape_page] *)
Definition scrape_page (existing_job_ids : option (gset string))
    (skip_scroll : bool) : E (list job * bool) :=
  let existing_job_ids := default ∅ existing_job_ids in
  (if negb skip_scroll then scroll_page else mret ()) ;;
  job_elements ← get_job_elements;
  match job_elements with
  | [] => mret ([], false)
  | _ => mret (scrape_items existing_job_ids job_elements [])
  end.

(** The [while page <= total_pages] loop of [scrape]. *)
Fixpoint scrape_while (fuel : nat) (category language : option string)
    (existing_job_ids : option (gset string)) (page total_pages : Z)
  : E () :=
  if page <=? total_pages then
    match fuel with
    | O => out_of_fuel
    | S fuel =>
        let skip_scroll := page =? 1 in
        '(jobs, stop) ← scrape_page existing_job_ids skip_scroll;
        assign_should_stop stop ;;
        extend_all_jobs jobs ;;
        if (stop : bool) then leave
        else
          let page := page + 1 in
          if total_pages <? page then leave
          else
            sleep ;;
            let url := build_jobs_url category language page in
            loaded ← load_page url;
            if negb loaded then leave
            else scrape_while fuel category language existing_job_ids
                   page total_pages
    end
  else leave.

(** [scrape] *)
Definition scrape (category language : option string)
    (existing_job_ids : option (gset string)) (max_pages : option Z)
  : E (list job) :=
  let existing_job_ids := Some (default ∅ existing_job_ids) in
  let max_pages :=
    match max_pages with None => MAX_PAGES cfg | Some _ => max_pages end in
  new_frame ;;
  assign_all_jobs [] ;;
  let page := 1 in
  try_except
    (let url := build_jobs_url category language page in
     loaded ← load_page url;
     if negb loaded then gets all_jobs
     else
       total_pages ← get_total_pages;
       let total_pages :=
         if truthy_int max_pages
         then Z.min total_pages (default 0 max_pages)
         else total_pages in
       scrape_while (Z.to_nat total_pages) category language
         existing_job_ids page total_pages ;;
       gets all_jobs)
    (λ _, gets all_jobs).

End WorkanaScraper.

(** ** [SlackNotifier] *)

(** The [DeepLTranslator] the notifier may hold: [is_available()] and
    [translate_text(text, target_lang="EN-US")], which is handed the title
    as the dictionary has it (a string or [None]) and raises, or returns a
    text or [None]. *)
Record translator_api := {
  is_available : bool;
  translate_text : option string → result (option string);
}.

Record SlackNotifier := {
  webhook_url : option string;
  translator : option translator_api;
}.

(** Block Kit blocks, as the dictionaries the notifier builds. *)
Inductive block :=
  | HeaderBlock (text : string)     (* "header", "plain_text" *)
  | SectionBlock (text : string)    (* "section", "mrkdwn" *)
  | ContextBlock (text : string).   (* "context", one "mrkdwn" element *)

(** The JSON body of a webhook request. *)
Record payload := {
  payload_text : string;
  payload_blocks : option (list block);
}.

(** [requests.post(url, json=payload, ...)]: a status code, or a raise. *)
Definition http_api : Type := string → payload → result Z.

(** The webhook requests made so far, oldest first. *)
Definition outbox : Type := list (string * payload).

Definition newline : string := String "010"%char "".

Definition divider_block : block :=
  SectionBlock "*───────────────────────────────────*".

Section Notifier.

Context (cfg : settings) (self : SlackNotifier) (http : http_api).

(** [send_message] *)
Definition send_message (text : string) (blocks : option (list block))
    (sent : outbox) : bool * outbox :=
  if negb (truthy_str (webhook_url self)) then (false, sent)
  else
    let webhook_url := default "" (webhook_url self) in
    if negb (PyStr.startswith webhook_url "https://hooks.slack.com")
    then (false, sent)
    else
      let payload :=
        {| payload_text := text;
           payload_blocks := match blocks with
                             | Some (b :: bs) => Some (b :: bs)
                             | _ => None
                             end |} in
      match http webhook_url payload with
      | Ok status_code =>
          (bool_decide (status_code = 200), sent ++ [(webhook_url, payload)])
      | Raise RequestsTimeout => (false, sent ++ [(webhook_url, payload)])
      | Raise RequestsConnectionError =>
          (false, sent ++ [(webhook_url, payload)])
      | Raise RequestException => (false, sent ++ [(webhook_url, payload)])
      | Raise _ => (false, sent ++ [(webhook_url, payload)])
      end.

(** The title of [format_job_block] after the translator had its turn: a
    string, or [None] when the dictionary holds [None] and no translation
    replaces it. *)
Definition translated_title (original_title : option string)
  : option string :=
  match translator self with
  | Some tr =>
      if is_available tr then
        match translate_text tr original_title with
        | Ok (Some (String a r)) => Some (String a r)
        | Ok _ => original_title
        | Raise _ => original_title
        end
      else original_title
  | None => original_title
  end.

(** [format_job_block] *)
Definition format_job_block (job_data : job) (index : option nat) : block :=
  let original_title := get_or (title job_data) "N/A" in
  let title := translated_title original_title in
  let url := default "" (url job_data) in
  let url :=
    if truthy_str (Some url) && negb (PyStr.startswith url "http")
    then BASE_URL cfg +:+ url else url in
  let title_text :=
    if truthy_str (Some url)
    then "*<" +:+ url +:+ "|" +:+ formatted title +:+ ">*"
    else "*" +:+ formatted title +:+ "*" in
  let text_parts := [title_text] in
  let text_parts :=
    if truthy_str (client_country job_data)
    then text_parts ++ ["Country: " +:+ default "" (client_country job_data)]
    else text_parts in
  let text_parts :=
    if truthy_bool (client_payment_verified job_data)
    then text_parts ++ ["Payment: ✅ Verified"]
    else text_parts ++ ["Payment: ❌ Not Verified"] in
  let text_parts :=
    if truthy_str (budget job_data)
    then text_parts ++ ["Budget: " +:+ default "" (budget job_data)]
    else text_parts in
  let main_text := PyStr.join newline text_parts in
  SectionBlock main_text.

(** The loop [for i, job in enumerate(jobs_to_send, 1)] of [send_new_jobs];
    [n] is [len(jobs_to_send)] and [blocks] the list built so far. *)
Fixpoint append_job_blocks (n i : nat) (jobs_to_send : list job)
    (blocks : list block) : list block :=
  match jobs_to_send with
  | [] => blocks
  | job_data :: rest =>
      let blocks := blocks ++ [format_job_block job_data (Some i)] in
      let blocks :=
        if (i <? n)%nat then blocks ++ [divider_block] else blocks in
      append_job_blocks n (S i) rest blocks
  end.

(** ['s' if len(new_jobs) != 1 else ''] *)
Definition plural (n : nat) : string :=
  if negb (n =? 1)%nat then "s" else "".

(** The note of [send_new_jobs] for the jobs that are not listed. *)
Definition more_jobs_block (new_jobs : list job) : block :=
  SectionBlock ("*... and " +:+ pretty (Z.of_nat (length new_jobs) - 10)
                +:+ " more new jobs!* Check the database for full list.").

Definition footer_block (new_jobs : list job) : block :=
  ContextBlock ("Scraped from Workana.com • Total new jobs: "
                +:+ pretty (length new_jobs)).

(** The header blocks [send_new_jobs] starts from. *)
Definition header_blocks (new_jobs : list job) (total_scraped : option Z)
  : list block :=
  let header_text :=
    "🎉 *" +:+ pretty (length new_jobs) +:+ " New Job"
    +:+ plural (length new_jobs) +:+ " Found on Workana!*" in
  let header_text :=
    if truthy_int total_scraped
    then header_text +:+ newline +:+ "(Scraped "
         +:+ pretty (default 0 total_scraped) +:+ " jobs total)"
    else header_text in
  [ HeaderBlock ("🎉 " +:+ pretty (length new_jobs) +:+ " New Job"
                 +:+ plural (length new_jobs) +:+ " Found!");
    SectionBlock header_text;
    divider_block ].

(** The value of [blocks] that [send_new_jobs] hands to [send_message]. *)
Definition new_jobs_blocks (new_jobs : list job) (total_scraped : option Z)
  : list block :=
  let blocks := header_blocks new_jobs total_scraped in
  let jobs_to_send := take 10 new_jobs in
  let blocks :=
    append_job_blocks (length jobs_to_send) 1 jobs_to_send blocks in
  let blocks :=
    if (10 <? length new_jobs)%nat
    then blocks ++ [more_jobs_block new_jobs] else blocks in
  blocks ++ [footer_block new_jobs].

(** [send_new_jobs] *)
Definition send_new_jobs (new_jobs : list job) (total_scraped : option Z)
    (sent : outbox) : bool * outbox :=
  match new_jobs with
  | [] => (true, sent)
  | _ =>
      if negb (truthy_str (webhook_url self)) then (false, sent)
      else
        let blocks := new_jobs_blocks new_jobs total_scraped in
        let fallback_text :=
          "Found " +:+ pretty (length new_jobs)
          +:+ " new job(s) on Workana" in
        send_message fallback_text (Some blocks) sent
  end.

End Notifier.

(** [sep] between every two entries of a list. *)
Fixpoint intersperse {A} (sep : A) (l : list A) : list A :=
  match l with
  | [] => []
  | [x] => [x]
  | x :: rest => x :: sep :: intersperse sep rest
  end.

(** ** A small site to run the scraper on *)

Module Demo.

Definition cfg (stop : bool) (max_pages : option Z) : settings :=
  {| BASE_URL := "https://www.workana.com";
     JOBS_URL := "https://www.workana.com/jobs";
     DEFAULT_CATEGORY := "it-programming";
     DEFAULT_LANGUAGE := "en";
     MAX_PAGES := max_pages;
     STOP_ON_KNOWN_JOB := stop;
     quote := λ s, s |}.

(** Splits ["id|client"] at the first bar. *)
Fixpoint split_bar (s : string) : string * option string :=
  match s with
  | EmptyString => ("", None)
  | String "|" r => ("", Some r)
  | String a r => let '(i, c) := split_bar r in (String a i, c)
  end.

(** A parser for fragments written ["id|client"]; ["!"] makes it raise and
    ["?"] gives a dictionary without an ['id']. *)
Definition parse (job_html base_url : string) : result job :=
  if bool_decide (job_html = "!") then Raise OtherException
  else
    let '(i, c) := split_bar job_html in
    Ok {| job_id := if bool_decide (job_html = "?") then None else Some i;
          client_name := c;
          title := Holds (Some ("Job " +:+ i));
          url := Some ("/job/" +:+ i);
          budget := None;
          client_country := None;
          client_payment_verified := None |}.

(** A document with the given page-link texts and job fragments. *)
Definition doc (links : list string) (items : list string) : dom :=
  {| dom_pagination :=
       match links with
       | [] => Ok None
       | _ => Ok (Some (Ok (Ok <$> links)))
       end;
     dom_job_items := Ok (Ok <$> items) |}.

Definition loads (d : dom) : page_load :=
  {| goto := Ok (); wait_for_selector := Ok (); document := d |}.

Definition times_out : page_load :=
  {| goto := Raise PlaywrightTimeoutError; wait_for_selector := Ok ();
     document := doc [] [] |}.

Definition refuses : page_load :=
  {| goto := Raise OtherException; wait_for_selector := Ok ();
     document := doc [] [] |}.

(** The site whose page [p] (from 1) is the [p]-th entry of [pages]; any
    other URL fails to load. *)
Fixpoint site_of (c : settings) (pages : list page_load) (p : Z)
    (url : string) : page_load :=
  match pages with
  | [] => refuses
  | pg :: rest =>
      if bool_decide (url = build_jobs_url c None None p) then pg
      else site_of c rest (p + 1) url
  end.

Definition world_of (c : settings) (pages : list page_load) : world :=
  {| site := site_of c pages 1; parse_job_element_from_html := parse;
     python := ascii_text |}.

(** A listing of two pages; the second holds the record ["J1|Acme"]. *)
Definition listing : list page_load :=
  [ loads (doc ["1"; "2"] ["J5|Zeta"; "?"; "|Anon"; "!"]);
    loads (doc ["1"; "2"] ["J2|Beta"; "J1|Acme"; "J3|Gamma"]) ].

(** A listing of three pages whose second page times out. *)
Definition broken_listing : list page_load :=
  [ loads (doc ["1"; "2"; "3"] ["J5|Zeta"; "J6|Eta"]); times_out;
    loads (doc ["1"; "2"; "3"] ["J7|Theta"]) ].

(** Two pages of three records each. *)
Definition two_by_three : list page_load :=
  [ loads (doc ["1"; "2"] ["a|x"; "b|x"; "c|x"]);
    loads (doc ["1"; "2"] ["d|x"; "e|x"; "f|x"]) ].

(** One page whose only page link reads ["0"]. *)
Definition page_zero : list page_load :=
  [ loads (doc ["0"] ["a|x"]) ].

(** A document whose first page link cannot be read and whose second
    reads ["5"]. *)
Definition flaky_links : dom :=
  {| dom_pagination := Ok (Some (Ok [Raise OtherException; Ok "5"]));
     dom_job_items := Ok [Ok "a|x"] |}.

(** One page without a pagination element. *)
Definition single_page : list page_load :=
  [ loads (doc [] ["a|x"; "b|x"]) ].

(** One page that holds the record ["J1|Acme"] in the middle, and one page
    with only the record before it. *)
Definition known_in_the_middle : list page_load :=
  [ loads (doc [] ["J2|Beta"; "J1|Acme"; "J3|Gamma"]) ].

Definition only_new : list page_load :=
  [ loads (doc [] ["J2|Beta"]) ].

(** Three pages, each announcing three pages and holding one record. *)
Definition three_pages : list page_load :=
  [ loads (doc ["1"; "2"; "3"] ["a|x"]);
    loads (doc ["1"; "2"; "3"] ["b|x"]);
    loads (doc ["1"; "2"; "3"] ["c|x"]) ].

(** A job as [parse] builds it. *)
Definition job_of (i c : string) : job :=
  {| job_id := Some i; client_name := Some c;
     title := Holds (Some ("Job " +:+ i)); url := Some ("/job/" +:+ i);
     budget := None; client_country := None;
     client_payment_verified := None |}.

Definition notifier (webhook : option string) : SlackNotifier :=
  {| webhook_url := webhook; translator := None |}.

(** A webhook that accepts every request. *)
Definition http_ok : http_api := λ _ _, Ok 200.

End Demo.

(** ** What a document yields, as plain functions *)

Section Views.

Context (cfg : settings) (w : world).

(** The pages [page], [page + 1], ... ([n] of them). *)
Fixpoint pages_from (page : Z) (n : nat) : list Z :=
  match n with
  | O => []
  | S n => page :: pages_from (page + 1) n
  end.

(** What the site answers for page number [page] of a listing. *)
Definition page_at (category language : option string) (page : Z)
  : page_load :=
  site w (build_jobs_url cfg category language page).

(** Whether [load_page] reports the page as loaded. *)
Definition loads_ok (p : page_load) : bool :=
  match goto p, wait_for_selector p with
  | Ok _, Ok _ => true
  | _, _ => false
  end.

(** Whether an element answered [evaluate] with its HTML. *)
Definition readable (element : result string) : bool :=
  match element with
  | Ok _ => true
  | Raise _ => false
  end.

(** The fragments [get_job_elements] returns on the page shown. *)
Definition job_elements_of (p : option page_load) : list string :=
  match p with
  | Some p =>
      match dom_job_items (document p) with
      | Ok job_elements => job_htmls_of job_elements
      | Raise _ => []
      end
  | None => []
  end.

(** The pair [scrape_page] returns on the page shown. *)
Definition page_jobs (existing_job_ids : option (gset string))
    (p : option page_load) : list job * bool :=
  scrape_items cfg w (default ∅ existing_job_ids) (job_elements_of p) [].

(** The records of a page that parse and carry an ['id']. *)
Fixpoint usable_jobs (job_elements : list string) : list job :=
  match job_elements with
  | [] => []
  | job_html :: rest =>
      match parse_job_element_from_html w job_html (BASE_URL cfg) with
      | Ok job_data =>
          if truthy_str (job_id job_data)
          then job_data :: usable_jobs rest
          else usable_jobs rest
      | Raise _ => usable_jobs rest
      end
  end.

(** The usable records of page number [page] of a listing. *)
Definition page_records (category language : option string) (page : Z)
  : list job :=
  usable_jobs (job_elements_of (Some (page_at category language page))).

(** The number [get_total_pages] returns on the page shown. *)
Definition total_pages_of (p : option page_load) : Z :=
  match p with
  | Some p =>
      match dom_pagination (document p) with
      | Ok (Some (Ok (link :: page_links))) =>
          max_or_1 (page_numbers_of w (link :: page_links))
      | _ => 1
      end
  | None => 1
  end.

(** A page link on which no page number is read: [inner_text()] raises,
    or [isdigit] turns the stripped text down, or [int] raises on it. *)
Definition not_numeric (link : result string) : Prop :=
  match link with
  | Ok text =>
      isdigit (python w) (strip (python w) text) = false
      ∨ ∃ e, int (python w) (strip (python w) text) = Raise e
  | Raise _ => True
  end.

(** The pagination metadata of a document is missing: querying the
    pagination element raises or finds none, or listing its page links
    raises or finds none, or no page number is read on any link. *)
Definition pagination_missing (d : dom) : Prop :=
  match dom_pagination d with
  | Raise _ => True
  | Ok None => True
  | Ok (Some (Raise _)) => True
  | Ok (Some (Ok page_links)) => Forall not_numeric page_links
  end.

(** The page limit in force: [max_pages], or [MAX_PAGES] when it is
    [None]; none when that is [None] or 0. *)
Definition page_limit (max_pages : option Z) : option Z :=
  let max_pages :=
    match max_pages with None => MAX_PAGES cfg | Some _ => max_pages end in
  if truthy_int max_pages then max_pages else None.

(** [total_pages] after [if max_pages: total_pages = min(...)], with
    [max_pages] already defaulted to [MAX_PAGES]. *)
Definition capped (total_pages : Z) (max_pages : option Z) : Z :=
  let max_pages :=
    match max_pages with None => MAX_PAGES cfg | Some _ => max_pages end in
  if truthy_int max_pages then Z.min total_pages (default 0 max_pages)
  else total_pages.

Definition logged (c : list call) (s : state) : state :=
  {| shown := shown s; calls := calls s ++ c;
     all_jobs := all_jobs s; should_stop := should_stop s |}.

(** The state on entry of [scrape], after [all_jobs = []]. *)
Definition cleared (s : state) : state :=
  {| shown := shown s; calls := calls s;
     all_jobs := []; should_stop := None |}.

(** The state [load_page url] leaves. *)
Definition after_load (url : string) (s : state) : state :=
  {| shown := match goto (site w url) with
              | Ok _ => Some (site w url)
              | Raise _ => shown s
              end;
     calls := calls s ++ [CallGoto url];
     all_jobs := all_jobs s; should_stop := should_stop s |}.

(** The state one call of [scrape_page] and the two assignments after it
    leave. *)
Definition after_page (existing_job_ids : option (gset string))
    (s : state) : state :=
  {| shown := shown s; calls := calls s ++ [CallJobItems];
     all_jobs := all_jobs s ++ (page_jobs existing_job_ids (shown s)).1;
     should_stop := Some (page_jobs existing_job_ids (shown s)).2 |}.

(** The records [scrape_page] returns on each of the pages [pages], in
    order. *)
Definition jobs_of_pages (category language : option string)
    (existing_job_ids : option (gset string)) (pages : list Z) : list job :=
  flat_map
    (λ q, (page_jobs existing_job_ids
             (Some (page_at category language q))).1) pages.

(** The browser calls of the iterations on [pages], each followed by the
    fetch of the next page. *)
Definition calls_of_pages (category language : option string)
    (pages : list Z) : list call :=
  flat_map
    (λ q, [CallJobItems;
           CallGoto (build_jobs_url cfg category language (q + 1))]) pages.

(** The browser calls of visiting each of [pages]: fetch it, then list its
    job items. *)
Definition visit_calls (category language : option string)
    (pages : list Z) : list call :=
  flat_map
    (λ q, [CallGoto (build_jobs_url cfg category language q);
           CallJobItems]) pages.

(** The number of pages the run asked the browser to fetch. *)
Fixpoint count_goto (cs : list call) : nat :=
  match cs with
  | [] => O
  | CallGoto _ :: rest => S (count_goto rest)
  | _ :: rest => count_goto rest
  end.

(** The number of times the pagination was read. *)
Fixpoint count_pagination (cs : list call) : nat :=
  match cs with
  | [] => O
  | CallPagination :: rest => S (count_pagination rest)
  | _ :: rest => count_pagination rest
  end.

(** The URLs the run asked the browser to fetch, in order. *)
Fixpoint goto_urls (cs : list call) : list string :=
  match cs with
  | [] => []
  | CallGoto url :: rest => url :: goto_urls rest
  | _ :: rest => goto_urls rest
  end.

(** The number of pages whose job items were listed. *)
Fixpoint count_job_items (cs : list call) : nat :=
  match cs with
  | [] => O
  | CallJobItems :: rest => S (count_job_items rest)
  | _ :: rest => count_job_items rest
  end.

End Views.

(** ** [format_job_blocks] *)

(** [re.sub(r'(\d+(?:,\d+)*(?:\.\d+)?)', r'*\1*', budget_raw)], on ASCII
    text. *)
Module Re.

Definition is_digit (a : ascii) : bool :=
  bool_decide (is_Some (PyStr.digit_of a)).

(** The digits at the head of [s]: what is left of [\d+] to match. *)
Fixpoint digits (s : string) : string :=
  match s with
  | String a r => if is_digit a then String a (digits r) else ""
  | EmptyString => ""
  end.

(** What [(?:\.\d+)?] matches at the head of [s]. *)
Definition fraction (s : string) : string :=
  match s with
  | String "." (String d r) =>
      if is_digit d then String "." (String d (digits r)) else ""
  | _ => ""
  end.

(** What the pattern matches after its first digit: more digits, groups of
    a comma followed by digits, then at most one fraction. *)
Fixpoint number_tail (s : string) : string :=
  match s with
  | String a r =>
      if is_digit a then String a (number_tail r)
      else if bool_decide (a = ","%char) then
        match r with
        | String d _ => if is_digit d then String a (number_tail r) else ""
        | EmptyString => ""
        end
      else fraction s
  | EmptyString => ""
  end.

(** The match of the pattern at the head of [s], if there is one. *)
Definition match_number (s : string) : option string :=
  match s with
  | String a r => if is_digit a then Some (String a (number_tail r)) else None
  | EmptyString => None
  end.

(** The substitution, left to right; [skip] characters of the match just
    replaced are still to be passed over. *)
Fixpoint sub_from (skip : nat) (s : string) : string :=
  match s with
  | EmptyString => ""
  | String a r =>
      match skip with
      | S skip => sub_from skip r
      | O =>
          match match_number s with
          | Some m =>
              "*" +:+ m +:+ "*" +:+ sub_from (String.length m - 1) r
          | None => String a (sub_from 0 r)
          end
      end
  end.

Definition bold_numbers (budget_raw : string) : string :=
  sub_from 0 budget_raw.

(** [s] without its asterisks. *)
Fixpoint without_stars (s : string) : string :=
  match s with
  | EmptyString => ""
  | String a r =>
      if bool_decide (a = "*"%char) then without_stars r
      else String a (without_stars r)
  end.

End Re.

(** The button a section block may carry as its accessory. *)
Record button := {
  button_text : string;     (* "text": {"type": "plain_text", "text": ...} *)
  button_url : string;      (* "url" *)
  action_id : string;       (* "action_id" *)
}.

(** A section block of [format_job_blocks]: its "mrkdwn" text and its
    accessory, if any. *)
Record section_block := {
  section_text : string;
  accessory : option button;
}.

(** [l[-1] = f(l[-1])] on a list. *)
Fixpoint map_last {A} (f : A → A) (l : list A) : list A :=
  match l with
  | [] => []
  | [x] => [f x]
  | x :: rest => x :: map_last f rest
  end.

(** [sep.join(parts)] on a list whose items are strings or [None]: a
    [TypeError] when an item is [None]. *)
Definition join_parts (sep : string) (parts : list (option string))
  : result string :=
  match mapM (λ part, part) parts with
  | Some parts => Ok (PyStr.join sep parts)
  | None => Raise OtherException
  end.

Definition divider_text : string :=
  "*───────────────────────────────────*".

Section NotifierBlocks.

Context (cfg : settings) (self : SlackNotifier).

(** [format_job_blocks] *)
Definition format_job_blocks (job_data : job) (index : option nat)
  : result (list section_block) :=
  let blocks := [] in
  let original_title := get_or (title job_data) "N/A" in
  let title := translated_title self original_title in
  let url := default "" (url job_data) in
  let url :=
    if truthy_str (Some url) && negb (PyStr.startswith url "http")
    then BASE_URL cfg +:+ url else url in
  let text_parts := [title] in
  let text_parts :=
    if truthy_str (client_country job_data)
    then text_parts
         ++ [Some ("Country: " +:+ default "" (client_country job_data))]
    else text_parts in
  let budget_raw := budget job_data in
  let status_emoji :=
    if truthy_bool (client_payment_verified job_data) then "✅" else "❌" in
  let text_parts :=
    if truthy_str budget_raw then
      let budget_with_bold := Re.bold_numbers (default "" budget_raw) in
      text_parts
      ++ [Some ("Budget: " +:+ budget_with_bold +:+ " : " +:+ status_emoji)]
    else text_parts in
  let text_parts :=
    match text_parts with
    | [] => [Some divider_text]
    | _ =>
        map_last
          (λ part, Some (formatted part +:+ newline +:+ divider_text))
          text_parts
    end in
  match join_parts newline text_parts with
  | Raise e => Raise e
  | Ok main_text =>
      let main_block :=
        {| section_text := main_text;
           accessory :=
             if truthy_str (Some url)
             then Some {| button_text := "Open Job"; button_url := url;
                          action_id := "view_job" |}
             else None |} in
      Ok (blocks ++ [main_block])
  end.

End NotifierBlocks.

(** ** [WorkanaScraper.close] *)

Module Driver.

(** Which of [self.browser], [self.playwright] and [self.page] hold an
    object ([false] is [None]). *)
Record handles := {
  browser : bool;
  playwright : bool;
  page : bool;
}.

Inductive driver_call :=
  | BrowserClose       (* self.browser.close() *)
  | PlaywrightStop.    (* self.playwright.stop() *)

(** [close]; the two arguments are what [self.browser.close()] and
    [self.playwright.stop()] answer when they are called. *)
Definition close (browser_close playwright_stop : result ())
    (self : handles) (made : list driver_call)
  : result () * handles * list driver_call :=
  let after_browser :=
    if browser self then
      match browser_close with
      | Ok _ =>
          (Ok (), {| browser := false; playwright := playwright self;
                     page := page self |}, made ++ [BrowserClose])
      | Raise e => (Raise e, self, made ++ [BrowserClose])
      end
    else (Ok (), self, made) in
  match after_browser with
  | (Raise e, self, made) => (Raise e, self, made)
  | (Ok _, self, made) =>
      let after_playwright :=
        if playwright self then
          match playwright_stop with
          | Ok _ =>
              (Ok (), {| browser := browser self; playwright := false;
                         page := page self |}, made ++ [PlaywrightStop])
          | Raise e => (Raise e, self, made ++ [PlaywrightStop])
          end
        else (Ok (), self, made) in
      match after_playwright with
      | (Raise e, self, made) => (Raise e, self, made)
      | (Ok _, self, made) =>
          (Ok (), {| browser := browser self; playwright := playwright self;
                     page := false |}, made)
      end
  end.

End Driver.

(** ** [cleanup_db.main] *)

Module CleanupDb.

Inductive db_call :=
  | GetStatistics      (* db.get_statistics() *)
  | CleanupOldJobs     (* db.cleanup_old_jobs() *)
  | Close.             (* db.close() *)

(** The [WorkanaDatabase] of [storage.database] as [main] uses it, over a
    database state [S]: each method answers with a value or a raise and
    leaves a state.  [get_statistics] stands for
    [db.get_statistics()['total_jobs']]. *)
Record WorkanaDatabase (S : Type) := {
  get_statistics : S → result Z * S;
  cleanup_old_jobs : S → result Z * S;
  close : S → result () * S;
}.
Arguments get_statistics {S}.
Arguments cleanup_old_jobs {S}.
Arguments close {S}.

(** [main], from the database just opened; what it prints is left out.  It
    returns normally or lets the exception of a database call through, and
    gives the state the database is left in and the calls made on it. *)
Definition main {S} (MAX_JOBS_IN_DB : Z) (db : WorkanaDatabase S) (st : S)
  : result () * S * list db_call :=
  match get_statistics db st with
  | (Raise e, st) => (Raise e, st, [GetStatistics])
  | (Ok current_count, st) =>
      if current_count <=? MAX_JOBS_IN_DB then
        match close db st with
        | (Raise e, st) => (Raise e, st, [GetStatistics; Close])
        | (Ok _, st) => (Ok (), st, [GetStatistics; Close])
        end
      else
        match cleanup_old_jobs db st with
        | (Raise e, st) => (Raise e, st, [GetStatistics; CleanupOldJobs])
        | (Ok removed_count, st) =>
            match get_statistics db st with
            | (Raise e, st) =>
                (Raise e, st, [GetStatistics; CleanupOldJobs; GetStatistics])
            | (Ok new_count, st) =>
                match close db st with
                | (Raise e, st) =>
                    (Raise e, st,
                     [GetStatistics; CleanupOldJobs; GetStatistics; Close])
                | (Ok _, st) =>
                    (Ok (), st,
                     [GetStatistics; CleanupOldJobs; GetStatistics; Close])
                end
            end
        end
  end.

(** A database that holds a number of jobs and trims itself to [limit]. *)
Definition counting_db (limit : Z) : WorkanaDatabase Z :=
  {| get_statistics := λ n, (Ok n, n);
     cleanup_old_jobs := λ n, (Ok (Z.max 0 (n - limit)), Z.min n limit);
     close := λ n, (Ok (), n) |}.

(** The same database, whose [cleanup_old_jobs] fails. *)
Definition failing_db : WorkanaDatabase Z :=
  {| get_statistics := λ n, (Ok n, n);
     cleanup_old_jobs := λ n, (Raise OtherException, n);
     close := λ n, (Ok (), n) |}.

End CleanupDb.

(** * Properties *)

Example strip_demo : PyStr.strip "  12 " = "12".
Proof. reflexivity. Qed.
Example int_demo : PyStr.int "042" = Ok 42.
Proof. reflexivity. Qed.

Example isdigit_demo :
  PyStr.isdigit "12" = true ∧ PyStr.isdigit "" = false
  ∧ PyStr.isdigit "1a" = false.
Proof. done. Qed.

Ltac run_E :=
  unfold mbind, E_bind, mret, E_ret, try_except, lift, gets, modify, log,
    navigate, raise, sleep, leave, extend_all_jobs, assign_should_stop,
    assign_all_jobs; simpl.

Lemma bind_ok {A B} (m : E A) (f : A → E B) s a s' :
  m s = Some (Ok a, s') → (m ≫= f) s = f a s'.
Proof. intros H. unfold mbind, E_bind. by rewrite H. Qed.

Section ScraperFacts.

Context (cfg : settings) (w : world).

Lemma load_page_run url s :
  load_page w url s = Some (Ok (loads_ok (site w url)), after_load w url s).
Proof.
  unfold load_page, page_goto, page_wait_for_selector, loads_ok, after_load.
  run_E.
  destruct (goto (site w url)) as [[]|e]; simpl.
  - destruct (wait_for_selector (site w url)) as [[]|e]; simpl; [done|].
    by destruct e.
  - by destruct e.
Qed.

Lemma get_job_elements_run s :
  get_job_elements s
  = Some (Ok (job_elements_of (shown s)), logged [CallJobItems] s).
Proof.
  unfold get_job_elements, page_query_job_items, job_elements_of, logged.
  run_E.
  destruct (shown s) as [p|]; simpl; [|done].
  by destruct (dom_job_items (document p)).
Qed.

Lemma scrape_page_run existing skip s :
  scrape_page cfg w existing skip s
  = Some (Ok (page_jobs cfg w existing (shown s)), logged [CallJobItems] s).
Proof.
  unfold scrape_page, page_jobs.
  erewrite bind_ok; [|by destruct skip].
  erewrite bind_ok; [|apply get_job_elements_run].
  by destruct (job_elements_of (shown s)).
Qed.

Lemma get_total_pages_run s :
  get_total_pages w s
  = Some (Ok (total_pages_of w (shown s)), logged [CallPagination] s).
Proof.
  unfold get_total_pages, page_query_pagination, total_pages_of, logged.
  run_E.
  destruct (shown s) as [p|]; simpl; [|done].
  destruct (dom_pagination (document p)) as [[[[|link links]|e]|]|e];
    by simpl.
Qed.

(** The list built so far is only ever extended. *)
Lemma scrape_items_acc existing job_elements jobs :
  scrape_items cfg w existing job_elements jobs
  = (jobs ++ (scrape_items cfg w existing job_elements []).1,
     (scrape_items cfg w existing job_elements []).2).
Proof.
  revert jobs. induction job_elements as [|job_html rest IH]; intros jobs.
  - simpl. by rewrite app_nil_r.
  - simpl.
    destruct (parse_job_element_from_html w job_html (BASE_URL cfg))
      as [job_data|e]; [|apply IH].
    destruct (negb (truthy_str (job_id job_data))); [apply IH|].
    destruct (STOP_ON_KNOWN_JOB cfg
              && bool_decide (job_key job_data ∈ existing)).
    + simpl. by rewrite app_nil_r.
    + rewrite IH, (IH [job_data]). simpl. by rewrite <- app_assoc.
Qed.

Lemma scrape_while_done fuel cat lang existing page total s :
  total < page →
  scrape_while cfg w fuel cat lang existing page total s = Some (Ok (), s).
Proof.
  intros H. destruct fuel; simpl;
    by rewrite (proj2 (Z.leb_gt page total) H).
Qed.

(** One iteration of the loop. *)
Lemma scrape_while_step fuel cat lang existing page total s :
  page ≤ total →
  scrape_while cfg w (S fuel) cat lang existing page total s
  = let s1 := after_page cfg w existing s in
    let url := build_jobs_url cfg cat lang (page + 1) in
    if (page_jobs cfg w existing (shown s)).2 then Some (Ok (), s1)
    else if total <? page + 1 then Some (Ok (), s1)
    else if loads_ok (site w url)
         then scrape_while cfg w fuel cat lang existing (page + 1) total
                (after_load w url s1)
         else Some (Ok (), after_load w url s1).
Proof.
  intros H. simpl. rewrite (proj2 (Z.leb_le page total) H).
  erewrite bind_ok; [|apply scrape_page_run].
  unfold after_page.
  destruct (page_jobs cfg w existing (shown s)) as [jobs stop]; simpl.
  destruct stop; [done|].
  unfold mbind at 1 2. unfold E_bind. simpl.
  destruct (total <? page + 1); [done|].
  unfold mbind at 1. unfold E_bind. simpl.
  erewrite bind_ok; [|apply load_page_run].
  by destruct (loads_ok _).
Qed.

(** Fragments before the first known record are all kept. *)
Lemma scrape_items_clean existing pre rest jobs :
  (STOP_ON_KNOWN_JOB cfg = false
   ∨ ∀ j, j ∈ usable_jobs cfg w pre → job_key j ∉ existing) →
  scrape_items cfg w existing (pre ++ rest) jobs
  = scrape_items cfg w existing rest (jobs ++ usable_jobs cfg w pre).
Proof.
  revert jobs. induction pre as [|job_html pre IH]; intros jobs Hclean.
  - simpl. by rewrite app_nil_r.
  - simpl in *.
    destruct (parse_job_element_from_html w job_html (BASE_URL cfg))
      as [job_data|e]; [|by apply IH].
    destruct (truthy_str (job_id job_data)); simpl; [|by apply IH].
    assert (STOP_ON_KNOWN_JOB cfg
            && bool_decide (job_key job_data ∈ existing) = false) as ->.
    { destruct Hclean as [->|Hnot]; [done|].
      apply andb_false_intro2, bool_decide_eq_false, Hnot. left. }
    rewrite IH.
    + by rewrite <- app_assoc.
    + destruct Hclean as [?|Hnot]; [by left|right].
      intros j Hj. apply Hnot. by right.
Qed.

Lemma scrape_items_no_known existing job_elements :
  (STOP_ON_KNOWN_JOB cfg = false
   ∨ ∀ j, j ∈ usable_jobs cfg w job_elements → job_key j ∉ existing) →
  scrape_items cfg w existing job_elements []
  = (usable_jobs cfg w job_elements, false).
Proof.
  intros H.
  pose proof (scrape_items_clean existing job_elements [] [] H) as Heq.
  by rewrite app_nil_r in Heq.
Qed.

(** A known record ends the loop of [scrape_page] on the spot. *)
Lemma scrape_items_known existing job_html job_data rest jobs :
  STOP_ON_KNOWN_JOB cfg = true →
  parse_job_element_from_html w job_html (BASE_URL cfg) = Ok job_data →
  truthy_str (job_id job_data) = true →
  job_key job_data ∈ existing →
  scrape_items cfg w existing (job_html :: rest) jobs = (jobs, true).
Proof.
  intros Hstop Hparse Hid Hin. simpl.
  by rewrite Hparse, Hid, Hstop, bool_decide_eq_true_2.
Qed.

(** A known record ends the loop wherever it stands on the page: what came
    before it decides the records kept. *)
Lemma scrape_items_known_after existing pre job_html job_data rest :
  STOP_ON_KNOWN_JOB cfg = true →
  parse_job_element_from_html w job_html (BASE_URL cfg) = Ok job_data →
  truthy_str (job_id job_data) = true →
  job_key job_data ∈ existing →
  ∀ jobs,
    scrape_items cfg w existing (pre ++ job_html :: rest) jobs
    = ((scrape_items cfg w existing pre jobs).1, true).
Proof.
  intros Hstop Hparse Hid Hin.
  induction pre as [|h pre IH]; intros jobs.
  - by eapply scrape_items_known.
  - simpl.
    destruct (parse_job_element_from_html w h (BASE_URL cfg))
      as [job_data'|e]; [|apply IH].
    destruct (negb (truthy_str (job_id job_data'))); [apply IH|].
    destruct (STOP_ON_KNOWN_JOB cfg && _); [done|apply IH].
Qed.

(** The records kept are the usable records up to some point of the page. *)
Lemma scrape_items_prefix existing job_elements :
  (scrape_items cfg w existing job_elements []).1
  `prefix_of` usable_jobs cfg w job_elements.
Proof.
  induction job_elements as [|job_html rest IH]; simpl; [done|].
  destruct (parse_job_element_from_html w job_html (BASE_URL cfg))
    as [job_data|e]; [|done].
  destruct (truthy_str (job_id job_data)); simpl; [|done].
  destruct (STOP_ON_KNOWN_JOB cfg && _); simpl.
  - apply prefix_nil.
  - rewrite scrape_items_acc. simpl. by apply prefix_cons.
Qed.

(** With stopping enabled, no record that is kept has a known key. *)
Lemma scrape_items_unknown existing job_elements :
  STOP_ON_KNOWN_JOB cfg = true →
  ∀ jobs,
    Forall (λ j, job_key j ∉ existing) jobs →
    Forall (λ j, job_key j ∉ existing)
      (scrape_items cfg w existing job_elements jobs).1.
Proof.
  intros Hstop.
  induction job_elements as [|job_html rest IH]; intros jobs Hjobs; simpl.
  - done.
  - destruct (parse_job_element_from_html w job_html (BASE_URL cfg))
      as [job_data|e]; [|by apply IH].
    destruct (negb (truthy_str (job_id job_data))); [by apply IH|].
    rewrite Hstop. simpl. case_bool_decide as Hin; [done|].
    apply IH, Forall_app. split; [done|]. by apply Forall_singleton.
Qed.

(** A record without an ['id'] is skipped before its key is looked at. *)
Lemma scrape_items_skip existing pre job_html job_data rest :
  parse_job_element_from_html w job_html (BASE_URL cfg) = Ok job_data →
  truthy_str (job_id job_data) = false →
  ∀ jobs,
    scrape_items cfg w existing (pre ++ job_html :: rest) jobs
    = scrape_items cfg w existing (pre ++ rest) jobs.
Proof.
  intros Hparse Hid. induction pre as [|h pre IH]; intros jobs; simpl.
  - by rewrite Hparse, Hid.
  - destruct (parse_job_element_from_html w h (BASE_URL cfg))
      as [job_data'|e]; [|apply IH].
    destruct (negb (truthy_str (job_id job_data'))); [apply IH|].
    destruct (STOP_ON_KNOWN_JOB cfg && _); [done|apply IH].
Qed.

Lemma scrape_items_Forall (P : job → Prop) existing job_elements :
  (∀ job_html job_data,
     parse_job_element_from_html w job_html (BASE_URL cfg) = Ok job_data →
     truthy_str (job_id job_data) = true → P job_data) →
  ∀ jobs, Forall P jobs →
          Forall P (scrape_items cfg w existing job_elements jobs).1.
Proof.
  intros HP.
  induction job_elements as [|job_html rest IH]; intros jobs Hjobs; simpl.
  - done.
  - destruct (parse_job_element_from_html w job_html (BASE_URL cfg))
      as [job_data|e] eqn:Hparse; [|by apply IH].
    destruct (truthy_str (job_id job_data)) eqn:Hid; simpl; [|by apply IH].
    destruct (STOP_ON_KNOWN_JOB cfg && _); [done|].
    apply IH, Forall_app. split; [done|].
    apply Forall_singleton. by eapply HP.
Qed.

(** [scrape_page]'s loop asks to stop exactly when stopping is enabled and
    the page has a usable record whose key is known. *)
Lemma scrape_items_stop_iff existing job_elements :
  (scrape_items cfg w existing job_elements []).2 = true
  ↔ STOP_ON_KNOWN_JOB cfg = true
    ∧ ∃ j, j ∈ usable_jobs cfg w job_elements ∧ job_key j ∈ existing.
Proof.
  split.
  - intros Hstop.
    destruct (STOP_ON_KNOWN_JOB cfg) eqn:Hcfg;
      [|by rewrite scrape_items_no_known in Hstop by (by left)].
    split; [done|].
    induction job_elements as [|job_html rest IH]; simpl in *; [done|].
    destruct (parse_job_element_from_html w job_html (BASE_URL cfg))
      as [job_data|e]; [|by apply IH].
    destruct (truthy_str (job_id job_data)); simpl in *; [|by apply IH].
    rewrite Hcfg in Hstop. simpl in Hstop.
    case_bool_decide as Hin.
    + exists job_data. split; [by left|done].
    + rewrite scrape_items_acc in Hstop. simpl in Hstop.
      destruct (IH Hstop) as (j & Hj & Hjin).
      exists j. split; [by right|done].
  - intros [Hcfg (j & Hj & Hin)].
    induction job_elements as [|job_html rest IH]; simpl in *.
    { by apply elem_of_nil in Hj. }
    destruct (parse_job_element_from_html w job_html (BASE_URL cfg))
      as [job_data|e]; [|by apply IH].
    destruct (truthy_str (job_id job_data)); simpl; [|by apply IH].
    rewrite Hcfg. simpl. case_bool_decide; [done|].
    apply elem_of_cons in Hj as [->|Hj]; [done|].
    rewrite scrape_items_acc. simpl. by apply IH.
Qed.

Lemma after_load_shown url s :
  loads_ok (site w url) = true →
  shown (after_load w url s) = Some (site w url).
Proof.
  unfold loads_ok, after_load. simpl.
  by destruct (goto (site w url)).
Qed.

(** Passing [None] or the empty set for the known keys is the same. *)
Lemma scrape_while_existing fuel cat lang existing total :
  ∀ page s,
  scrape_while cfg w fuel cat lang (Some (default ∅ existing)) page total s
  = scrape_while cfg w fuel cat lang existing page total s.
Proof.
  induction fuel as [|fuel IH]; intros page s; [done|].
  destruct (decide (page ≤ total)) as [Hle|Hgt].
  - rewrite !scrape_while_step by done. cbv zeta.
    change (page_jobs cfg w (Some (default ∅ existing)) (shown s))
      with (page_jobs cfg w existing (shown s)).
    change (after_page cfg w (Some (default ∅ existing)) s)
      with (after_page cfg w existing s).
    by rewrite IH.
  - by rewrite !scrape_while_done by lia.
Qed.

(** [scrape] is: fetch page 1, read the pagination once, run the loop,
    return [all_jobs]. *)
Lemma scrape_run cat lang existing max_pages s :
  scrape cfg w cat lang existing max_pages s
  = let s1 := after_load w (build_jobs_url cfg cat lang 1) (cleared s) in
    let total := capped cfg (total_pages_of w (shown s1)) max_pages in
    if loads_ok (page_at cfg w cat lang 1) then
      match scrape_while cfg w (Z.to_nat total) cat lang existing 1 total
              (logged [CallPagination] s1) with
      | Some (_, s') => Some (Ok (all_jobs s'), s')
      | None => None
      end
    else Some (Ok [], s1).
Proof.
  unfold scrape, page_at, capped.
  unfold mbind at 1 2. unfold E_bind. simpl. unfold try_except.
  erewrite bind_ok; [|apply load_page_run].
  fold (cleared s).
  destruct (loads_ok _); simpl; [|done].
  erewrite bind_ok; [|apply get_total_pages_run].
  unfold mbind, E_bind, gets. rewrite scrape_while_existing.
  by destruct (scrape_while _ _ _ _ _ _ _ _ _) as [[[[]|e] s']|].
Qed.

Section Loop.

Context (cat lang : option string) (existing : option (gset string))
        (total : Z).

Let here q := Some (page_at cfg w cat lang q).

(** The loop always leaves normally when it has a unit of fuel for each
    page that is left. *)
Lemma scrape_while_returns fuel :
  ∀ page s, total - page + 1 ≤ Z.of_nat fuel →
  ∃ s', scrape_while cfg w fuel cat lang existing page total s
        = Some (Ok (), s').
Proof.
  induction fuel as [|fuel IH]; intros page s Hfuel.
  - exists s. apply scrape_while_done. lia.
  - destruct (decide (page ≤ total)) as [Hle|Hgt].
    + rewrite scrape_while_step by done. simpl.
      destruct (page_jobs _ _ _ _).2; [by eexists|].
      destruct (total <? page + 1); [by eexists|].
      destruct (loads_ok _); [|by eexists].
      apply IH. lia.
    + exists s. apply scrape_while_done. lia.
Qed.

(** Iterations over pages that load and on which nothing stops the
    loop: after [n] of them the loop is at page [page + n]. *)
Lemma scrape_while_advance n :
  ∀ fuel page s,
  shown s = here page →
  (∀ q, page ≤ q < page + Z.of_nat n →
        (page_jobs cfg w existing (here q)).2 = false
        ∧ loads_ok (page_at cfg w cat lang (q + 1)) = true) →
  page + Z.of_nat n ≤ total →
  total - page + 1 ≤ Z.of_nat fuel →
  ∃ s',
    scrape_while cfg w fuel cat lang existing page total s
    = scrape_while cfg w (fuel - n) cat lang existing
        (page + Z.of_nat n) total s'
    ∧ shown s' = here (page + Z.of_nat n)
    ∧ calls s' = calls s ++ calls_of_pages cfg cat lang (pages_from page n)
    ∧ all_jobs s'
      = all_jobs s
        ++ jobs_of_pages cfg w cat lang existing (pages_from page n).
Proof.
  induction n as [|n IH]; intros fuel page s Hshown Hclean Hle Hfuel.
  - exists s. simpl. rewrite Nat.sub_0_r, Z.add_0_r, !app_nil_r.
    by repeat split.
  - destruct fuel as [|fuel]; [lia|].
    destruct (Hclean page) as [Hstop Hload]; [lia|].
    rewrite scrape_while_step by lia. simpl.
    rewrite Hshown, Hstop.
    rewrite (proj2 (Z.ltb_ge total (page + 1))) by lia.
    fold (page_at cfg w cat lang (page + 1)). rewrite Hload.
    destruct (IH fuel (page + 1)
                (after_load w (build_jobs_url cfg cat lang (page + 1))
                   (after_page cfg w existing s)))
      as (s' & Hrun & Hs' & Hcalls & Hjobs).
    + by apply after_load_shown.
    + intros q Hq. apply Hclean. lia.
    + lia.
    + lia.
    + exists s'. rewrite Hrun.
      replace (page + 1 + Z.of_nat n) with (page + Z.of_nat (S n))
        in * by lia.
      split; [done|]. split; [done|].
      rewrite Hcalls, Hjobs. simpl. rewrite Hshown.
      by rewrite <- !app_assoc.
Qed.

(** Every record the loop accumulates comes from a fragment that
    parsed and carried an ['id']. *)
Lemma scrape_while_Forall (P : job → Prop) :
  (∀ job_html job_data,
     parse_job_element_from_html w job_html (BASE_URL cfg) = Ok job_data →
     truthy_str (job_id job_data) = true → P job_data) →
  ∀ fuel page s r s',
    Forall P (all_jobs s) →
    scrape_while cfg w fuel cat lang existing page total s = Some (r, s') →
    Forall P (all_jobs s').
Proof.
  intros HP. induction fuel as [|fuel IH]; intros page s r s' Hs Hrun.
  - simpl in Hrun. destruct (page <=? total); [done|].
    by injection Hrun as _ <-.
  - destruct (decide (page ≤ total)) as [Hle|Hgt].
    + rewrite scrape_while_step in Hrun by done. simpl in Hrun.
      assert (Forall P (all_jobs (after_page cfg w existing s))) as Hs1.
      { simpl. apply Forall_app. split; [done|].
        by apply scrape_items_Forall. }
      destruct (page_jobs _ _ _ _).2; [by injection Hrun as _ <-|].
      destruct (total <? page + 1); [by injection Hrun as _ <-|].
      destruct (loads_ok _); [|by injection Hrun as _ <-].
      by eapply IH; [|apply Hrun].
    + rewrite scrape_while_done in Hrun by lia.
      by injection Hrun as _ <-.
Qed.

(** The loop fetches at most the pages after [page] up to [total], and
    never reads the pagination. *)
Lemma scrape_while_calls fuel :
  ∀ page s r s',
  scrape_while cfg w fuel cat lang existing page total s = Some (r, s') →
  ∃ cs, calls s' = calls s ++ cs
        ∧ (count_goto cs ≤ Z.to_nat (total - page))%nat
        ∧ count_pagination cs = O.
Proof.
  induction fuel as [|fuel IH]; intros page s r s' Hrun.
  - simpl in Hrun. destruct (page <=? total); [done|].
    injection Hrun as _ <-. exists []. rewrite app_nil_r.
    repeat split; simpl; lia.
  - destruct (decide (page ≤ total)) as [Hle|Hgt].
    + rewrite scrape_while_step in Hrun by done. simpl in Hrun.
      destruct (page_jobs _ _ _ _).2.
      { injection Hrun as _ <-. exists [CallJobItems].
        repeat split; simpl; lia. }
      destruct (total <? page + 1) eqn:Hlast.
      { injection Hrun as _ <-. exists [CallJobItems].
        repeat split; simpl; lia. }
      apply Z.ltb_ge in Hlast.
      destruct (loads_ok _).
      * apply IH in Hrun as (cs & Hcs & Hgoto & Hpag). simpl in Hcs.
        exists (CallJobItems
                  :: CallGoto (build_jobs_url cfg cat lang (page + 1)) :: cs).
        rewrite Hcs, <- !app_assoc. repeat split; simpl; [|done].
        replace (total - page) with (Z.succ (total - (page + 1))) by lia.
        rewrite Z2Nat.inj_succ by lia. lia.
      * injection Hrun as _ <-.
        exists [CallJobItems;
                CallGoto (build_jobs_url cfg cat lang (page + 1))].
        simpl. rewrite <- app_assoc. repeat split; simpl.
        replace (total - page) with (Z.succ (total - (page + 1))) by lia.
        rewrite Z2Nat.inj_succ by lia. lia.
    + rewrite scrape_while_done in Hrun by lia.
      injection Hrun as _ <-. exists []. rewrite app_nil_r.
      repeat split; simpl; lia.
Qed.

(** How the loop is left once it has been entered: right after the job
    items of a page were listed, with [should_stop] as [scrape_page]
    returned it on that page, or right after a page that failed to load,
    with [should_stop] false. *)
Lemma scrape_while_exit fuel :
  ∀ page s s',
  page ≤ total →
  scrape_while cfg w fuel cat lang existing page total s = Some (Ok (), s') →
  ∃ cs, calls s' = calls s ++ cs
        ∧ match last cs with
          | Some CallJobItems =>
              should_stop s'
              = Some (page_jobs cfg w existing (shown s')).2
          | Some (CallGoto url) =>
              loads_ok (site w url) = false ∧ should_stop s' = Some false
          | _ => False
          end.
Proof.
  induction fuel as [|fuel IH]; intros page s s' Hle Hrun.
  - simpl in Hrun. by rewrite (proj2 (Z.leb_le page total) Hle) in Hrun.
  - rewrite scrape_while_step in Hrun by done. simpl in Hrun.
    destruct (page_jobs cfg w existing (shown s)).2 eqn:Hstop.
    { injection Hrun as <-. exists [CallJobItems]. simpl. by rewrite Hstop. }
    destruct (total <? page + 1) eqn:Hlast.
    { injection Hrun as <-. exists [CallJobItems]. simpl.
      by rewrite Hstop. }
    apply Z.ltb_ge in Hlast.
    destruct (loads_ok _) eqn:Hload.
    + apply IH in Hrun as (cs & Hcs & Hexit); [|done]. simpl in Hcs.
      exists (CallJobItems
                :: CallGoto (build_jobs_url cfg cat lang (page + 1)) :: cs).
      rewrite Hcs, <- !app_assoc. split; [done|].
      destruct cs as [|c cs]; [done|].
      by rewrite !last_cons_cons.
    + injection Hrun as <-.
      exists [CallJobItems;
              CallGoto (build_jobs_url cfg cat lang (page + 1))].
      simpl. rewrite <- app_assoc. by rewrite Hstop.
Qed.

Lemma calls_of_pages_visit page n :
  calls_of_pages cfg cat lang (pages_from page n) ++ [CallJobItems]
  = CallJobItems :: visit_calls cfg cat lang (pages_from (page + 1) n).
Proof.
  revert page. induction n as [|n IH]; intros page; simpl; [done|].
  by rewrite IH.
Qed.

Lemma pages_from_snoc page n :
  pages_from page (S n) = pages_from page n ++ [page + Z.of_nat n].
Proof.
  revert page. induction n as [|n IH]; intros page.
  - simpl. by rewrite Z.add_0_r.
  - change (pages_from page (S (S n)))
      with (page :: pages_from (page + 1) (S n)).
    rewrite IH. simpl. do 3 f_equal. lia.
Qed.

End Loop.

Lemma elem_of_pages_from q page n :
  q ∈ pages_from page n ↔ page ≤ q < page + Z.of_nat n.
Proof.
  revert page. induction n as [|n IH]; intros page.
  - simpl. rewrite elem_of_nil. lia.
  - change (pages_from page (S n)) with (page :: pages_from (page + 1) n).
    rewrite elem_of_cons, IH. lia.
Qed.

Lemma jobs_of_pages_records cat lang existing pages :
  (∀ q, q ∈ pages →
        page_jobs cfg w existing (Some (page_at cfg w cat lang q))
        = (page_records cfg w cat lang q, false)) →
  jobs_of_pages cfg w cat lang existing pages
  = flat_map (page_records cfg w cat lang) pages.
Proof.
  induction pages as [|q pages IH]; intros Hclean; simpl; [done|].
  rewrite (Hclean q) by left. simpl. f_equal.
  apply IH. intros q' Hq'. apply Hclean. by right.
Qed.

Lemma page_numbers_of_not_numeric page_links :
  Forall (not_numeric w) page_links → page_numbers_of w page_links = [].
Proof.
  induction 1 as [|link page_links Hlink _ IH]; simpl; [done|].
  destruct link as [text|e]; [|done].
  cbv zeta. destruct Hlink as [Hdigit | [e Hint]].
  - by rewrite Hdigit.
  - rewrite Hint. by destruct (isdigit _ _).
Qed.

Lemma total_pages_of_missing p :
  pagination_missing w (document p) → total_pages_of w (Some p) = 1.
Proof.
  unfold pagination_missing, total_pages_of.
  destruct (dom_pagination (document p)) as [[[[|link links]|e]|]|e];
    try done.
  intros H. by rewrite (page_numbers_of_not_numeric _ H).
Qed.

Lemma capped_limit total max_pages :
  capped cfg total max_pages
  = match page_limit cfg max_pages with
    | Some m => Z.min total m
    | None => total
    end.
Proof.
  unfold capped, page_limit.
  destruct max_pages as [m|]; simpl.
  - by destruct (m =? 0).
  - destruct (MAX_PAGES cfg) as [m|]; simpl; [|done].
    by destruct (m =? 0).
Qed.

Section Walk.

Context (cat lang : option string) (existing : option (gset string))
        (max_pages : option Z).

Let here q := Some (page_at cfg w cat lang q).
Let cap := capped cfg (total_pages_of w (here 1)) max_pages.

(** A page with no known record (or any page, when stopping on a known
    job is disabled) gives all its usable records and does not stop the
    loop. *)
Lemma page_jobs_no_known p :
  (STOP_ON_KNOWN_JOB cfg = false
   ∨ ∀ j, j ∈ usable_jobs cfg w (job_elements_of p) →
          job_key j ∉ default ∅ existing) →
  page_jobs cfg w existing p = (usable_jobs cfg w (job_elements_of p), false).
Proof. apply scrape_items_no_known. Qed.

(** A run whose first [n + 1] pages load, and whose first [n] pages do not
    stop the loop, gets to the iteration on page [n + 1] with the records
    of the first [n] pages. *)
Lemma scrape_reaches (n : nat) s :
  (∀ q, 1 ≤ q ≤ Z.of_nat n + 1 → loads_ok (page_at cfg w cat lang q) = true) →
  (∀ q, 1 ≤ q ≤ Z.of_nat n →
        (page_jobs cfg w existing (here q)).2 = false) →
  Z.of_nat n + 1 ≤ cap →
  ∃ fuel s1,
    scrape cfg w cat lang existing max_pages s
    = match scrape_while cfg w (S fuel) cat lang existing
              (1 + Z.of_nat n) cap s1 with
      | Some (_, s') => Some (Ok (all_jobs s'), s')
      | None => None
      end
    ∧ shown s1 = here (1 + Z.of_nat n)
    ∧ calls s1
      = calls s
        ++ [CallGoto (build_jobs_url cfg cat lang 1); CallPagination]
        ++ calls_of_pages cfg cat lang (pages_from 1 n)
    ∧ all_jobs s1 = jobs_of_pages cfg w cat lang existing (pages_from 1 n).
Proof.
  intros Hload Hclean Hcap.
  rewrite scrape_run. cbv zeta.
  rewrite (Hload 1) by lia.
  rewrite after_load_shown by (apply (Hload 1); lia).
  fold (page_at cfg w cat lang 1). fold (here 1). fold cap.
  set (s0 := logged _ _).
  assert (shown s0 = here 1) as Hs0.
  { unfold s0. simpl. apply after_load_shown. apply (Hload 1). lia. }
  destruct (scrape_while_advance cat lang existing cap n (Z.to_nat cap) 1 s0)
    as (s1 & Hrun & Hshown & Hcalls & Hjobs); [done| |lia|lia|].
  { intros q Hq. split; [apply Hclean; lia|apply Hload; lia]. }
  destruct (Z.to_nat cap - n)%nat as [|fuel] eqn:Hfuel; [lia|].
  exists fuel, s1. rewrite Hrun.
  split; [done|]. split; [done|].
  rewrite Hcalls, Hjobs. unfold s0. simpl.
  split; [by rewrite <- !app_assoc|done].
Qed.

(** [scrape] always returns, and what it returns is [all_jobs]. *)
Lemma scrape_returns s :
  ∃ s', scrape cfg w cat lang existing max_pages s
        = Some (Ok (all_jobs s'), s').
Proof.
  rewrite scrape_run. cbv zeta.
  destruct (loads_ok _);
    [|by exists (after_load w (build_jobs_url cfg cat lang 1) (cleared s))].
  set (total := capped _ _ _). set (s1 := logged _ _).
  destruct (scrape_while_returns cat lang existing total
              (Z.to_nat total) 1 s1) as [s' Hrun]; [lia|].
  rewrite Hrun. by exists s'.
Qed.

Lemma jobs_of_pages_snoc n :
  jobs_of_pages cfg w cat lang existing (pages_from 1 (S n))
  = jobs_of_pages cfg w cat lang existing (pages_from 1 n)
    ++ (page_jobs cfg w existing (here (1 + Z.of_nat n))).1.
Proof.
  rewrite pages_from_snoc. unfold jobs_of_pages.
  rewrite flat_map_app. simpl. by rewrite app_nil_r.
Qed.

(** A run in which every page up to the capped page count loads and none
    stops the loop visits all of them. *)
Lemma scrape_full_walk s :
  1 ≤ cap →
  (∀ q, 1 ≤ q ≤ cap →
        loads_ok (page_at cfg w cat lang q) = true
        ∧ (page_jobs cfg w existing (here q)).2 = false) →
  ∃ s',
    scrape cfg w cat lang existing max_pages s
    = Some (Ok (jobs_of_pages cfg w cat lang existing
                  (pages_from 1 (Z.to_nat cap))), s')
    ∧ calls s'
      = calls s
        ++ CallGoto (build_jobs_url cfg cat lang 1) :: CallPagination
        :: CallJobItems
        :: visit_calls cfg cat lang (pages_from 2 (Z.to_nat cap - 1))
    ∧ should_stop s' = Some false.
Proof.
  intros Hcap Hpages.
  destruct (Z.to_nat cap) as [|m] eqn:Hm; [lia|].
  rewrite jobs_of_pages_snoc.
  replace (S m - 1)%nat with m by lia.
  destruct (scrape_reaches m s)
    as (fuel & s1 & Hrun & Hshown & Hcalls & Hjobs).
  { intros q Hq. apply Hpages. lia. }
  { intros q Hq. apply Hpages. lia. }
  { fold cap. lia. }
  fold (here 1) in Hrun. fold cap in Hrun.
  rewrite Hrun, scrape_while_step by lia. cbv zeta.
  rewrite Hshown.
  rewrite (proj2 (Hpages (1 + Z.of_nat m) ltac:(lia))).
  rewrite (proj2 (Z.ltb_lt cap (1 + Z.of_nat m + 1))) by lia.
  exists (after_page cfg w existing s1). split; [|split].
  - unfold after_page. cbn [all_jobs]. by rewrite Hjobs, Hshown.
  - unfold after_page. cbn [calls].
    rewrite Hcalls, <- !app_assoc. simpl. do 3 f_equal.
    apply calls_of_pages_visit.
  - unfold after_page. cbn [should_stop]. rewrite Hshown.
    by rewrite (proj2 (Hpages (1 + Z.of_nat m) ltac:(lia))).
Qed.

Lemma count_goto_visit_calls page n :
  count_goto (visit_calls cfg cat lang (pages_from page n)) = n.
Proof.
  revert page. induction n as [|n IH]; intros page; simpl; [done|].
  by rewrite IH.
Qed.

Lemma count_goto_walk u page n :
  count_goto (CallGoto u :: CallPagination :: CallJobItems
              :: visit_calls cfg cat lang (pages_from page n)) = S n.
Proof. simpl. by rewrite count_goto_visit_calls. Qed.

(** The browser calls of a run: the fetch of page 1 and, when it loads, one
    reading of the pagination, then the calls of the loop. *)
Lemma scrape_calls s :
  ∃ s' cs,
    scrape cfg w cat lang existing max_pages s = Some (Ok (all_jobs s'), s')
    ∧ calls s' = calls s ++ CallGoto (build_jobs_url cfg cat lang 1) :: cs
    ∧ if loads_ok (page_at cfg w cat lang 1)
      then ∃ cs', cs = CallPagination :: cs'
                  ∧ (count_goto cs' ≤ Z.to_nat (cap - 1))%nat
                  ∧ count_pagination cs' = O
      else cs = [].
Proof.
  rewrite scrape_run. cbv zeta.
  destruct (loads_ok (page_at cfg w cat lang 1)) eqn:Hload.
  - rewrite after_load_shown by done.
    fold (page_at cfg w cat lang 1). fold (here 1). fold cap.
    set (s1 := logged _ _).
    destruct (scrape_while_returns cat lang existing cap (Z.to_nat cap) 1 s1)
      as [s' Hrun]; [lia|].
    rewrite Hrun.
    destruct (scrape_while_calls cat lang existing cap _ _ _ _ _ Hrun)
      as (cs & Hcs & Hgoto & Hpag).
    exists s', (CallPagination :: cs). split; [done|]. split.
    + rewrite Hcs. unfold s1. simpl. by rewrite <- !app_assoc.
    + by exists cs.
  - by exists (after_load w (build_jobs_url cfg cat lang 1) (cleared s)), [].
Qed.

(** How a run ends: after the failed fetch of a page, before the loop is
    entered, or after the listing of a page's job items, with [should_stop]
    as [scrape_page] returned it on that page. *)
Lemma scrape_exit s :
  ∃ s' cs,
    scrape cfg w cat lang existing max_pages s = Some (Ok (all_jobs s'), s')
    ∧ calls s' = calls s ++ cs
    ∧ match last cs with
      | Some CallJobItems =>
          should_stop s' = Some (page_jobs cfg w existing (shown s')).2
      | Some (CallGoto url) =>
          loads_ok (site w url) = false
          ∧ (should_stop s' = None ∨ should_stop s' = Some false)
      | Some CallPagination => should_stop s' = None
      | None => False
      end.
Proof.
  rewrite scrape_run. cbv zeta.
  destruct (loads_ok (page_at cfg w cat lang 1)) eqn:Hload.
  - rewrite after_load_shown by done.
    fold (page_at cfg w cat lang 1). fold (here 1). fold cap.
    set (s1 := logged _ _).
    destruct (decide (1 ≤ cap)) as [Hcap|Hcap].
    + destruct (scrape_while_returns cat lang existing cap (Z.to_nat cap) 1 s1)
        as [s' Hrun]; [lia|].
      rewrite Hrun.
      destruct (scrape_while_exit cat lang existing cap _ _ _ _ Hcap Hrun)
        as (cs & Hcs & Hexit).
      exists s', (CallGoto (build_jobs_url cfg cat lang 1)
                  :: CallPagination :: cs).
      split; [done|]. split.
      { rewrite Hcs. unfold s1. simpl. by rewrite <- !app_assoc. }
      destruct cs as [|c cs]; [done|]. rewrite !last_cons_cons.
      destruct (last (c :: cs)) as [[url| |]|]; try done.
      destruct Hexit as [? ?]. auto.
    + rewrite scrape_while_done by lia.
      exists s1, [CallGoto (build_jobs_url cfg cat lang 1); CallPagination].
      split; [done|]. split; [|done].
      unfold s1. simpl. by rewrite <- !app_assoc.
  - exists (after_load w (build_jobs_url cfg cat lang 1) (cleared s)),
      [CallGoto (build_jobs_url cfg cat lang 1)].
    split; [done|]. split; [done|]. simpl. auto.
Qed.

End Walk.

End ScraperFacts.

(** ** The composite key and the records without an id *)

(** The loop over a page in two parts: when it stops in the first part the
    second is not looked at, otherwise it goes on with what it kept. *)
Lemma scrape_items_app (cfg : settings) (w : world) (existing : gset string)
    (pre rest : list string) :
  ∀ jobs,
    scrape_items cfg w existing (pre ++ rest) jobs
    = if (scrape_items cfg w existing pre jobs).2
      then ((scrape_items cfg w existing pre jobs).1, true)
      else scrape_items cfg w existing rest
             (scrape_items cfg w existing pre jobs).1.
Proof.
  induction pre as [|job_html pre IH]; intros jobs; [done|].
  cbn [app scrape_items].
  destruct (parse_job_element_from_html w job_html (BASE_URL cfg))
    as [job_data|e]; [|apply IH].
  destruct (negb (truthy_str (job_id job_data))); [apply IH|].
  cbv zeta.
  destruct (STOP_ON_KNOWN_JOB cfg && bool_decide (_ ∈ existing));
    [done|apply IH].
Qed.

(** C8.  The key tested against the known keys is the record's id, then a
    bar, then the record's client name, an absent client name giving the
    empty string.  This is what [job_key] computes for a record with an id,
    and it is the string [scrape_page]'s loop tests for every record it
    reaches, wherever the record stands on the page and whatever was kept
    before it: the loop stops at the record exactly when stopping is
    enabled and that string is among the known keys, and otherwise keeps
    the record and goes on with the rest of the page. *)
Theorem composite_key_is_id_bar_client
    (cfg : settings) (w : world) (existing : gset string)
    (job_html : string) (job_data : job) (i : string) :
  parse_job_element_from_html w job_html (BASE_URL cfg) = Ok job_data →
  job_id job_data = Some i →
  i ≠ "" →
  job_key job_data = i +:+ "|" +:+ default "" (client_name job_data)
  ∧ scrape_items cfg w existing [job_html] []
    = (if STOP_ON_KNOWN_JOB cfg
          && bool_decide
               (i +:+ "|" +:+ default "" (client_name job_data) ∈ existing)
       then ([], true)
       else ([job_data], false))
  ∧ ∀ pre post jobs,
      (scrape_items cfg w existing pre jobs).2 = false →
      scrape_items cfg w existing (pre ++ job_html :: post) jobs
      = if STOP_ON_KNOWN_JOB cfg
           && bool_decide
                (i +:+ "|" +:+ default "" (client_name job_data) ∈ existing)
        then ((scrape_items cfg w existing pre jobs).1, true)
        else scrape_items cfg w existing post
               ((scrape_items cfg w existing pre jobs).1 ++ [job_data]).
Proof.
  intros Hparse Hid Hne.
  assert (job_key job_data
          = i +:+ "|" +:+ default "" (client_name job_data)) as Hkey.
  { unfold job_key. rewrite Hid. simpl.
    by destruct (client_name job_data) as [[|a r]|]. }
  assert (∀ post jobs,
            scrape_items cfg w existing (job_html :: post) jobs
            = if STOP_ON_KNOWN_JOB cfg
                 && bool_decide
                      (i +:+ "|" +:+ default "" (client_name job_data)
                       ∈ existing)
              then (jobs, true)
              else scrape_items cfg w existing post (jobs ++ [job_data]))
    as Hhere.
  { intros post jobs. cbn [scrape_items]. rewrite Hparse, Hid. cbv zeta.
    rewrite Hkey. by destruct i. }
  split; [done|]. split.
  - rewrite Hhere. by destruct (STOP_ON_KNOWN_JOB cfg && _).
  - intros pre post jobs Hreached.
    by rewrite scrape_items_app, Hreached, Hhere.
Qed.

Lemma composite_key_is_id_bar_client_witness :
  job_key {| job_id := Some "J1"; client_name := Some "Acme";
             title := Holds (Some "Job J1"); url := Some "/job/J1";
             budget := None; client_country := None;
             client_payment_verified := None |}
  = "J1|Acme"
  ∧ scrape_items (Demo.cfg true None) (Demo.world_of (Demo.cfg true None) [])
      {["J1|Acme"]} ["J1|Acme"] []
    = ([], true)
  ∧ scrape_items (Demo.cfg true None) (Demo.world_of (Demo.cfg true None) [])
      {["J1|Acme"]} (["J2|Beta"; "J1|Other"] ++ "J1|Acme" :: ["J3|Gamma"])
      [Demo.job_of "J0" "Alpha"]
    = ([Demo.job_of "J0" "Alpha"; Demo.job_of "J2" "Beta";
        Demo.job_of "J1" "Other"], true).
Proof.
  pose proof (composite_key_is_id_bar_client
                (Demo.cfg true None) (Demo.world_of (Demo.cfg true None) [])
                {["J1|Acme"]} "J1|Acme" _ "J1"
                eq_refl eq_refl ltac:(discriminate))
    as (Hkey & Hitems & Hplace).
  split; [exact Hkey|]. split.
  - rewrite Hitems. vm_compute. reflexivity.
  - rewrite Hplace by (vm_compute; reflexivity). vm_compute. reflexivity.
Defined.

(** C5.  A record whose id is empty or absent is in no output: every record
    [scrape_page] and [scrape] return carries a non-empty id, and taking the
    fragment of such a record off the page changes neither the records nor
    the stop flag of [scrape_page]'s loop, whatever the known keys are. *)
Theorem missing_id_dropped
    (cfg : settings) (w : world) (cat lang : option string)
    (existing : option (gset string)) (max_pages : option Z) (s : state) :
  (∃ jobs s',
     scrape cfg w cat lang existing max_pages s = Some (Ok jobs, s')
     ∧ ∀ j, j ∈ jobs → truthy_str (job_id j) = true)
  ∧ (∀ skip_scroll, ∃ jobs stop s',
       scrape_page cfg w existing skip_scroll s = Some (Ok (jobs, stop), s')
       ∧ ∀ j, j ∈ jobs → truthy_str (job_id j) = true)
  ∧ (∀ known pre job_html job_data rest,
       parse_job_element_from_html w job_html (BASE_URL cfg) = Ok job_data →
       truthy_str (job_id job_data) = false →
       scrape_items cfg w known (pre ++ job_html :: rest) []
       = scrape_items cfg w known (pre ++ rest) []).
Proof.
  split; [|split].
  - rewrite scrape_run. simpl.
    destruct (loads_ok _).
    + set (total := capped _ _ _). set (s1 := logged _ _).
      destruct (scrape_while_returns cfg w cat lang existing total
                  (Z.to_nat total) 1 s1) as [s' Hrun]; [lia|].
      rewrite Hrun. exists (all_jobs s'), s'. split; [done|].
      apply Forall_forall.
      eapply (scrape_while_Forall cfg w cat lang existing total
                (λ j, truthy_str (job_id j) = true)); [|shelve|apply Hrun].
      * by intros.
      Unshelve. done.
    + eexists [], _. split; [done|]. by intros j ?%elem_of_nil.
  - intros skip. rewrite scrape_page_run.
    destruct (page_jobs cfg w existing (shown s)) as [jobs stop] eqn:Hp.
    exists jobs, stop, (logged [CallJobItems] s). split; [done|].
    apply Forall_forall.
    change jobs with (jobs, stop).1. rewrite <- Hp. unfold page_jobs.
    apply (scrape_items_Forall cfg w (λ j, truthy_str (job_id j) = true));
      [by intros|done].
  - intros known pre job_html job_data rest Hparse Hid.
    by eapply scrape_items_skip.
Qed.

Lemma missing_id_dropped_witness :
  scrape_items (Demo.cfg true None) (Demo.world_of (Demo.cfg true None) [])
    {["|Acme"]} (["J2|Beta"] ++ "|Acme" :: ["J3|Gamma"]) []
  = scrape_items (Demo.cfg true None) (Demo.world_of (Demo.cfg true None) [])
      {["|Acme"]} (["J2|Beta"] ++ ["J3|Gamma"]) [].
Proof.
  pose proof (missing_id_dropped
                (Demo.cfg true None) (Demo.world_of (Demo.cfg true None) [])
                None None None None initial_state) as (_ & _ & Hskip).
  exact (Hskip {["|Acme"]} ["J2|Beta"] "|Acme" _ ["J3|Gamma"]
           eq_refl eq_refl).
Defined.

(** ** The notifier *)

Section NotifierFacts.

Context (cfg : settings) (self : SlackNotifier) (http : http_api).

(** The loop lists the jobs in order, with a divider between two of them
    and none after the last. *)
Lemma append_job_blocks_intersperse jobs_to_send :
  ∀ n i blocks,
  (i + length jobs_to_send = n + 1)%nat →
  append_job_blocks cfg self n i jobs_to_send blocks
  = blocks
    ++ intersperse divider_block
         ((λ j, format_job_block cfg self j None) <$> jobs_to_send).
Proof.
  induction jobs_to_send as [|job_data rest IH]; intros n i blocks Hlen.
  - simpl. by rewrite app_nil_r.
  - simpl in *. destruct rest as [|job_data' rest].
    + simpl in *.
      by rewrite (proj2 (Nat.ltb_ge i n)) by lia.
    + rewrite IH by (simpl in *; lia).
      rewrite (proj2 (Nat.ltb_lt i n)) by (simpl in *; lia).
      by rewrite <- !app_assoc.
Qed.

End NotifierFacts.

(** C9.  With no new jobs [send_new_jobs] returns [True] and makes no
    webhook request; with new jobs and no webhook URL configured it returns
    [False] (and makes no request either). *)
Theorem send_new_jobs_nothing_to_send
    (cfg : settings) (self : SlackNotifier) (http : http_api)
    (total_scraped : option Z) (sent : outbox) :
  send_new_jobs cfg self http [] total_scraped sent = (true, sent)
  ∧ ∀ new_jobs,
      new_jobs ≠ [] →
      truthy_str (webhook_url self) = false →
      send_new_jobs cfg self http new_jobs total_scraped sent = (false, sent).
Proof.
  split; [done|].
  intros new_jobs Hne Hurl. unfold send_new_jobs.
  destruct new_jobs; [done|]. by rewrite Hurl.
Qed.

Lemma send_new_jobs_nothing_to_send_witness :
  send_new_jobs (Demo.cfg true None) (Demo.notifier None) Demo.http_ok
    [Demo.job_of "J1" "Acme"] None []
  = (false, []).
Proof.
  apply (send_new_jobs_nothing_to_send
           (Demo.cfg true None) (Demo.notifier None) Demo.http_ok None []).
  - discriminate.
  - reflexivity.
Defined.

(** C10.  For a non-empty list of new jobs and a configured webhook URL,
    the blocks handed to [send_message] are the three header blocks, then
    the job blocks of the first 10 jobs at most, in input order and with a
    divider between two of them, then, when and only when there are more
    than 10 jobs, a note giving the length of the list minus 10, then the
    footer; when the URL is a Slack webhook this is the message posted. *)
Theorem send_new_jobs_lists_first_ten
    (cfg : settings) (self : SlackNotifier) (http : http_api)
    (new_jobs : list job) (total_scraped : option Z) (sent : outbox) :
  new_jobs ≠ [] →
  truthy_str (webhook_url self) = true →
  let listed := (λ j, format_job_block cfg self j None) <$> take 10 new_jobs in
  let note :=
    if (10 <? length new_jobs)%nat
    then [SectionBlock
            ("*... and " +:+ pretty (Z.of_nat (length new_jobs) - 10)
             +:+ " more new jobs!* Check the database for full list.")]
    else [] in
  let blocks :=
    header_blocks new_jobs total_scraped
    ++ intersperse divider_block listed ++ note ++ [footer_block new_jobs] in
  let fallback_text :=
    "Found " +:+ pretty (length new_jobs) +:+ " new job(s) on Workana" in
  (length listed ≤ 10)%nat
  ∧ send_new_jobs cfg self http new_jobs total_scraped sent
    = send_message self http fallback_text (Some blocks) sent
  ∧ (PyStr.startswith (default "" (webhook_url self))
       "https://hooks.slack.com" = true →
     (send_new_jobs cfg self http new_jobs total_scraped sent).2
     = sent ++ [(default "" (webhook_url self),
                 {| payload_text := fallback_text;
                    payload_blocks := Some blocks |})]).
Proof.
  intros Hne Hurl listed note blocks fallback_text.
  assert (new_jobs_blocks cfg self new_jobs total_scraped = blocks) as Hblocks.
  { unfold new_jobs_blocks, blocks, note, listed.
    rewrite append_job_blocks_intersperse by lia.
    unfold more_jobs_block.
    destruct (10 <? length new_jobs)%nat; by rewrite <- !app_assoc. }
  assert (send_new_jobs cfg self http new_jobs total_scraped sent
          = send_message self http fallback_text (Some blocks) sent) as Hsend.
  { unfold send_new_jobs. destruct new_jobs; [done|].
    by rewrite Hurl, Hblocks. }
  split; [|split; [done|]].
  - unfold listed. rewrite length_fmap, length_take. lia.
  - intros Hhook. rewrite Hsend. unfold send_message.
    rewrite Hurl, Hhook. simpl.
    by destruct (http _ _) as [status_code|[]].
Qed.

Lemma send_new_jobs_lists_first_ten_witness :
  (send_new_jobs (Demo.cfg true None)
     (Demo.notifier (Some "https://hooks.slack.com/services/T0/B0/x"))
     Demo.http_ok (replicate 12 (Demo.job_of "J1" "Acme")) None []).2
  = [("https://hooks.slack.com/services/T0/B0/x",
      {| payload_text := "Found 12 new job(s) on Workana";
         payload_blocks :=
           Some (header_blocks (replicate 12 (Demo.job_of "J1" "Acme")) None
                 ++ intersperse divider_block
                      (replicate 10
                         (SectionBlock
                            ("*<https://www.workana.com/job/J1|Job J1>*"
                             +:+ newline +:+ "Payment: ❌ Not Verified")))
                 ++ [SectionBlock
                       "*... and 2 more new jobs!* Check the database for full list.";
                     ContextBlock
                       "Scraped from Workana.com • Total new jobs: 12"]) |})].
Proof.
  refine (proj2 (proj2 (send_new_jobs_lists_first_ten
           (Demo.cfg true None)
           (Demo.notifier (Some "https://hooks.slack.com/services/T0/B0/x"))
           Demo.http_ok (replicate 12 (Demo.job_of "J1" "Acme")) None []
           _ _)) _).
  - discriminate.
  - reflexivity.
  - reflexivity.
Defined.

(** ** The pagination walk *)

(** C1.  With stopping on a known job enabled, take a run that gets to page
    [n + 1] (the pages up to it load, it is within the capped page count,
    and no earlier page has a known record) and let that page yield, in
    page order, the fragments [pre], then a record whose key is known, then
    [post].  The walk halts there: the result is the usable records of
    pages [1..n] followed by records of [pre] only, so the known record,
    the records of [post] and the records of later pages are not in it; the
    last browser call is the listing of page [n + 1]; and the loop's stop
    flag is set.  The records kept from [pre] are its usable records up to
    some point, and all of them when none of them is known. *)
Theorem stop_on_known_halts_mid_page
    (cfg : settings) (w : world) (cat lang : option string)
    (existing : option (gset string)) (max_pages : option Z) (s : state)
    (n : nat) (pre post : list string) (job_html : string) (job_data : job) :
  let page q := Some (page_at cfg w cat lang q) in
  let known := default ∅ existing in
  STOP_ON_KNOWN_JOB cfg = true →
  (∀ q, 1 ≤ q ≤ Z.of_nat n + 1 → loads_ok (page_at cfg w cat lang q) = true) →
  Z.of_nat n + 1 ≤ capped cfg (total_pages_of w (page 1)) max_pages →
  (∀ q j, 1 ≤ q ≤ Z.of_nat n →
          j ∈ page_records cfg w cat lang q → job_key j ∉ known) →
  job_elements_of (page (Z.of_nat n + 1)) = pre ++ job_html :: post →
  parse_job_element_from_html w job_html (BASE_URL cfg) = Ok job_data →
  truthy_str (job_id job_data) = true →
  job_key job_data ∈ known →
  ∃ s' kept,
    scrape cfg w cat lang existing max_pages s
    = Some (Ok (flat_map (page_records cfg w cat lang) (pages_from 1 n)
                ++ kept), s')
    ∧ kept `prefix_of` usable_jobs cfg w pre
    ∧ ((∀ j, j ∈ usable_jobs cfg w pre → job_key j ∉ known) →
       kept = usable_jobs cfg w pre)
    ∧ (∀ j, j ∈ flat_map (page_records cfg w cat lang) (pages_from 1 n)
                ++ kept →
            job_key j ∉ known)
    ∧ calls s'
      = calls s
        ++ CallGoto (build_jobs_url cfg cat lang 1) :: CallPagination
        :: CallJobItems :: visit_calls cfg cat lang (pages_from 2 n)
    ∧ should_stop s' = Some true.
Proof.
  intros page known Hstop Hload Hcap Hearlier Hpage Hparse Hid Hknown.
  subst page known.
  assert (∀ q, 1 ≤ q ≤ Z.of_nat n →
               page_jobs cfg w existing (Some (page_at cfg w cat lang q))
               = (page_records cfg w cat lang q, false)) as Hclean.
  { intros q Hq. apply page_jobs_no_known. right.
    intros j Hj. by apply (Hearlier q). }
  destruct (scrape_reaches cfg w cat lang existing max_pages n s)
    as (fuel & s1 & Hrun & Hshown & Hcalls & Hjobs); [done| |done|].
  { intros q Hq. by rewrite Hclean. }
  set (kept := (scrape_items cfg w (default ∅ existing) pre []).1).
  assert (page_jobs cfg w existing (shown s1) = (kept, true)) as Hhere.
  { rewrite Hshown. replace (1 + Z.of_nat n) with (Z.of_nat n + 1) by lia.
    unfold page_jobs. rewrite Hpage.
    by eapply scrape_items_known_after. }
  rewrite Hrun, scrape_while_step by lia. cbv zeta.
  rewrite Hhere. simpl. rewrite Hhere. simpl.
  exists (after_page cfg w existing s1), kept.
  split; [|split; [|split; [|split; [|split]]]].
  - rewrite Hjobs, jobs_of_pages_records; [done|].
    intros q Hq%elem_of_pages_from. apply Hclean. lia.
  - apply scrape_items_prefix.
  - intros Hpre. unfold kept. rewrite scrape_items_no_known; [done|by right].
  - intros j [Hj|Hj]%elem_of_app.
    + apply list_elem_of_In, in_flat_map in Hj as (q & Hq & Hj).
      apply list_elem_of_In, elem_of_pages_from in Hq.
      apply (Hearlier q); [lia|]. by apply list_elem_of_In.
    + revert j Hj. apply Forall_forall.
      by apply scrape_items_unknown.
  - simpl. rewrite Hcalls, <- !app_assoc. simpl. do 3 f_equal.
    apply calls_of_pages_visit.
  - simpl. by rewrite Hhere.
Qed.

Lemma stop_on_known_halts_mid_page_witness :
  ∃ s',
    scrape (Demo.cfg true None) (Demo.world_of (Demo.cfg true None) Demo.listing)
      None None (Some {["J1|Acme"]}) None initial_state
    = Some (Ok [Demo.job_of "J5" "Zeta"; Demo.job_of "J2" "Beta"], s')
    ∧ should_stop s' = Some true.
Proof.
  destruct (stop_on_known_halts_mid_page
              (Demo.cfg true None)
              (Demo.world_of (Demo.cfg true None) Demo.listing)
              None None (Some {["J1|Acme"]}) None initial_state
              1 ["J2|Beta"] ["J3|Gamma"] "J1|Acme" (Demo.job_of "J1" "Acme"))
    as (s' & kept & Hrun & _ & Hkept & _ & _ & Hstop).
  - reflexivity.
  - intros q Hq. assert (q = 1 ∨ q = 2) as [-> | ->] by lia; reflexivity.
  - vm_compute. discriminate.
  - intros q j Hq. assert (q = 1) as -> by lia.
    intros Hj. vm_compute in Hj. apply list_elem_of_singleton in Hj as ->.
    vm_compute. discriminate.
  - reflexivity.
  - reflexivity.
  - reflexivity.
  - apply elem_of_singleton. reflexivity.
  - exists s'. split; [|exact Hstop].
    rewrite Hrun, Hkept; [reflexivity|].
    intros j Hj. vm_compute in Hj. apply list_elem_of_singleton in Hj as ->.
    vm_compute. discriminate.
Defined.

(** C3.  [load_page] turns a failed fetch (a timeout or any other error
    raised while loading) into [False], and [scrape] never raises: it
    always returns a list.  When the fetch of page 1 fails the list is
    empty; when the pages [1..n] were fetched and scraped and the fetch of
    page [n + 1] fails, the list is exactly what [scrape_page] returned on
    the pages [1..n], in order. *)
Theorem fetch_failure_returns_accumulated
    (cfg : settings) (w : world) (cat lang : option string)
    (existing : option (gset string)) (max_pages : option Z) (s : state) :
  let page q := Some (page_at cfg w cat lang q) in
  (∀ p e, goto p = Raise e ∨ wait_for_selector p = Raise e →
          loads_ok p = false)
  ∧ (∀ url s0, ∃ s1,
       load_page w url s0 = Some (Ok (loads_ok (site w url)), s1))
  ∧ (∃ jobs s',
       scrape cfg w cat lang existing max_pages s = Some (Ok jobs, s'))
  ∧ (loads_ok (page_at cfg w cat lang 1) = false →
     ∃ s', scrape cfg w cat lang existing max_pages s = Some (Ok [], s'))
  ∧ (∀ n : nat,
       (1 ≤ n)%nat →
       (∀ q, 1 ≤ q ≤ Z.of_nat n →
             loads_ok (page_at cfg w cat lang q) = true
             ∧ (page_jobs cfg w existing (page q)).2 = false) →
       Z.of_nat n + 1 ≤ capped cfg (total_pages_of w (page 1)) max_pages →
       loads_ok (page_at cfg w cat lang (Z.of_nat n + 1)) = false →
       ∃ s',
         scrape cfg w cat lang existing max_pages s
         = Some (Ok (jobs_of_pages cfg w cat lang existing (pages_from 1 n)),
                 s')).
Proof.
  intros page. subst page.
  split; [|split; [|split; [|split]]].
  - intros p e [H|H]; unfold loads_ok; rewrite H; [done|].
    by destruct (goto p).
  - intros url s0. rewrite load_page_run. by eexists.
  - destruct (scrape_returns cfg w cat lang existing max_pages s) as [s' H].
    by exists (all_jobs s'), s'.
  - intros Hfail. rewrite scrape_run. cbv zeta. rewrite Hfail. by eexists.
  - intros [|m] Hn Hbefore Hcap Hfail; [lia|].
    destruct (scrape_reaches cfg w cat lang existing max_pages m s)
      as (fuel & s1 & Hrun & Hshown & Hcalls & Hjobs).
    { intros q Hq. apply Hbefore. lia. }
    { intros q Hq. apply Hbefore. lia. }
    { lia. }
    rewrite Hrun, scrape_while_step by lia. cbv zeta.
    rewrite Hshown.
    rewrite (proj2 (Hbefore (1 + Z.of_nat m) ltac:(lia))).
    rewrite (proj2 (Z.ltb_ge _ _)) by lia.
    fold (page_at cfg w cat lang (1 + Z.of_nat m + 1)).
    replace (1 + Z.of_nat m + 1) with (Z.of_nat (S m) + 1) by lia.
    rewrite Hfail, jobs_of_pages_snoc.
    exists (after_load w (build_jobs_url cfg cat lang (Z.of_nat (S m) + 1))
              (after_page cfg w existing s1)).
    simpl. by rewrite Hjobs, Hshown.
Qed.

Lemma fetch_failure_returns_accumulated_witness :
  (∃ s',
     scrape (Demo.cfg true None)
       (Demo.world_of (Demo.cfg true None) [Demo.times_out])
       None None None None initial_state
     = Some (Ok [], s'))
  ∧ (∃ s',
       scrape (Demo.cfg true None)
         (Demo.world_of (Demo.cfg true None) Demo.broken_listing)
         None None None None initial_state
       = Some (Ok [Demo.job_of "J5" "Zeta"; Demo.job_of "J6" "Eta"], s')).
Proof.
  split.
  - apply (fetch_failure_returns_accumulated
             (Demo.cfg true None)
             (Demo.world_of (Demo.cfg true None) [Demo.times_out])
             None None None None initial_state).
    reflexivity.
  - pose proof (fetch_failure_returns_accumulated
                  (Demo.cfg true None)
                  (Demo.world_of (Demo.cfg true None) Demo.broken_listing)
                  None None None None initial_state) as (_ & _ & _ & _ & H).
    apply (H 1%nat).
    + lia.
    + intros q Hq. assert (q = 1) as -> by lia. split; reflexivity.
    + vm_compute. discriminate.
    + reflexivity.
Defined.

(** C4.  With stopping on a known job disabled and every fetch succeeding,
    the run fetches and scrapes every page from 1 up to the capped page
    count (the smaller of the total page count read on page 1 and
    [max_pages], when [max_pages] is given), whatever the known keys are:
    the browser calls are exactly the visits of these pages in order, and
    the result is all their usable records, known or not. *)
Theorem every_page_scraped_when_stop_disabled
    (cfg : settings) (w : world) (cat lang : option string)
    (existing : option (gset string)) (max_pages : option Z) (s : state) :
  let total := total_pages_of w (Some (page_at cfg w cat lang 1)) in
  let cap := capped cfg total max_pages in
  STOP_ON_KNOWN_JOB cfg = false →
  1 ≤ cap →
  (∀ q, 1 ≤ q ≤ cap → loads_ok (page_at cfg w cat lang q) = true) →
  (∀ m, max_pages = Some m → m ≠ 0 → cap = Z.min total m)
  ∧ ∃ s',
      scrape cfg w cat lang existing max_pages s
      = Some (Ok (flat_map (page_records cfg w cat lang)
                    (pages_from 1 (Z.to_nat cap))), s')
      ∧ calls s'
        = calls s
          ++ CallGoto (build_jobs_url cfg cat lang 1) :: CallPagination
          :: CallJobItems
          :: visit_calls cfg cat lang (pages_from 2 (Z.to_nat cap - 1)).
Proof.
  intros total cap Hstop Hcap Hload. split.
  { intros m -> Hm. unfold cap, capped. simpl.
    by rewrite (proj2 (Z.eqb_neq m 0) Hm). }
  assert (∀ q, page_jobs cfg w existing (Some (page_at cfg w cat lang q))
               = (page_records cfg w cat lang q, false)) as Hclean.
  { intros q. apply page_jobs_no_known. by left. }
  destruct (scrape_full_walk cfg w cat lang existing max_pages s)
    as (s' & Hrun & Hcalls & _); [done| |].
  { intros q Hq. split; [by apply Hload|by rewrite Hclean]. }
  exists s'. split; [|done].
  by rewrite (jobs_of_pages_records cfg w cat lang existing) in Hrun.
Qed.

Lemma every_page_scraped_when_stop_disabled_witness :
  ∃ s',
    scrape (Demo.cfg false None)
      (Demo.world_of (Demo.cfg false None) Demo.listing)
      None None (Some {["J1|Acme"]}) (Some 5) initial_state
    = Some (Ok [Demo.job_of "J5" "Zeta"; Demo.job_of "J2" "Beta";
                Demo.job_of "J1" "Acme"; Demo.job_of "J3" "Gamma"], s')
    ∧ calls s'
      = [CallGoto (build_jobs_url (Demo.cfg false None) None None 1);
         CallPagination; CallJobItems;
         CallGoto (build_jobs_url (Demo.cfg false None) None None 2);
         CallJobItems].
Proof.
  apply (every_page_scraped_when_stop_disabled
           (Demo.cfg false None)
           (Demo.world_of (Demo.cfg false None) Demo.listing)
           None None (Some {["J1|Acme"]}) (Some 5) initial_state).
  - reflexivity.
  - vm_compute. discriminate.
  - intros q Hq. change (1 ≤ q ≤ 2) in Hq.
    assert (q = 1 ∨ q = 2) as [-> | ->] by lia; reflexivity.
Defined.

(** ** How many pages are fetched *)

(** C6, as stated, fails: page 1 is fetched before the page count is known,
    so a run fetches one page even when the minimum of the page count read
    on page 1 and [max_pages] is below 1 (here with [max_pages = -1], and
    with a pagination whose only link reads 0). *)
Lemma pages_fetched_exceed_minimum :
  (∃ s',
     scrape (Demo.cfg true None)
       (Demo.world_of (Demo.cfg true None) Demo.listing)
       None None None (Some (-1)) initial_state
     = Some (Ok [], s')
     ∧ total_pages_of
         (Demo.world_of (Demo.cfg true None) Demo.listing)
         (Some (page_at (Demo.cfg true None)
                  (Demo.world_of (Demo.cfg true None) Demo.listing)
                  None None 1)) = 2
     ∧ count_goto (calls s') = 1%nat
     ∧ ¬ Z.of_nat (count_goto (calls s')) ≤ Z.min 2 (-1))
  ∧ (∃ s',
       scrape (Demo.cfg true None)
         (Demo.world_of (Demo.cfg true None) Demo.page_zero)
         None None None (Some 5) initial_state
       = Some (Ok [], s')
       ∧ total_pages_of
           (Demo.world_of (Demo.cfg true None) Demo.page_zero)
           (Some (page_at (Demo.cfg true None)
                    (Demo.world_of (Demo.cfg true None) Demo.page_zero)
                    None None 1)) = 0
       ∧ count_goto (calls s') = 1%nat
       ∧ ¬ Z.of_nat (count_goto (calls s')) ≤ Z.min 0 5).
Proof.
  split; eexists; (split; [vm_compute; reflexivity|]);
    (split; [reflexivity|]); (split; [reflexivity|]); simpl; lia.
Qed.

(** C6, amended.  In every run the number of pages fetched is at most the
    larger of 1 and the capped page count (the minimum of the page count
    read on page 1 and [max_pages], or that page count alone when no
    [max_pages] is in force).  The pagination is read at most once, right
    after page 1 has loaded, and never again.  When every page up to the
    capped count loads and none stops the loop, exactly that many pages are
    fetched. *)
Theorem pages_fetched_bounded
    (cfg : settings) (w : world) (cat lang : option string)
    (existing : option (gset string)) (max_pages : option Z) (s : state) :
  let page q := Some (page_at cfg w cat lang q) in
  let cap := capped cfg (total_pages_of w (page 1)) max_pages in
  ∃ jobs s' cs,
    scrape cfg w cat lang existing max_pages s = Some (Ok jobs, s')
    ∧ calls s' = calls s ++ cs
    ∧ Z.of_nat (count_goto cs) ≤ Z.max 1 cap
    ∧ (count_pagination cs ≤ 1)%nat
    ∧ (loads_ok (page_at cfg w cat lang 1) = true →
       ∃ cs', cs = CallGoto (build_jobs_url cfg cat lang 1)
                   :: CallPagination :: cs'
              ∧ count_pagination cs' = O)
    ∧ (1 ≤ cap →
       (∀ q, 1 ≤ q ≤ cap →
             loads_ok (page_at cfg w cat lang q) = true
             ∧ (page_jobs cfg w existing (page q)).2 = false) →
       Z.of_nat (count_goto cs) = cap).
Proof.
  intros page cap. subst page.
  destruct (scrape_calls cfg w cat lang existing max_pages s)
    as (s' & cs & Hrun & Hcalls & Hcs).
  exists (all_jobs s'), s',
    (CallGoto (build_jobs_url cfg cat lang 1) :: cs).
  split; [done|]. split; [done|].
  destruct (loads_ok (page_at cfg w cat lang 1)) eqn:Hload.
  - destruct Hcs as (cs' & -> & Hgoto & Hpag). fold cap in Hgoto.
    split; [cbn [count_goto]; lia|].
    split; [cbn [count_pagination]; lia|]. split; [by exists cs'|].
    intros Hcap Hpages.
    destruct (scrape_full_walk cfg w cat lang existing max_pages s)
      as (s2 & Hrun2 & Hcalls2 & _); [done|done|].
    rewrite Hrun in Hrun2. injection Hrun2 as _ <-.
    rewrite Hcalls2 in Hcalls. apply app_inv_head in Hcalls.
    match type of Hcalls with
    | _ :: _ :: ?l = _ => assert (cs' = l) as -> by congruence
    end.
    rewrite count_goto_walk. unfold cap in *. lia.
  - subst cs. split; [cbn [count_goto]; lia|].
    split; [cbn [count_pagination]; lia|].
    split; [done|]. intros Hcap Hpages.
    destruct (Hpages 1) as [Hload1 _]; [lia|]. congruence.
Qed.

Lemma pages_fetched_bounded_witness :
  ∃ jobs s' cs,
    scrape (Demo.cfg true None)
      (Demo.world_of (Demo.cfg true None) Demo.two_by_three)
      None None None (Some 5) initial_state
    = Some (Ok jobs, s')
    ∧ length jobs = 6%nat
    ∧ calls s' = cs
    ∧ count_goto cs = 2%nat.
Proof.
  destruct (pages_fetched_bounded
              (Demo.cfg true None)
              (Demo.world_of (Demo.cfg true None) Demo.two_by_three)
              None None None (Some 5) initial_state)
    as (jobs & s' & cs & Hrun & Hcalls & _ & _ & _ & Hexact).
  exists jobs, s', cs. split; [exact Hrun|].
  split.
  { vm_compute in Hrun. injection Hrun as <- _. reflexivity. }
  split; [exact Hcalls|].
  apply Nat2Z.inj. apply Hexact.
  - vm_compute. discriminate.
  - intros q Hq. change (1 ≤ q ≤ 2) in Hq.
    assert (q = 1 ∨ q = 2) as [-> | ->] by lia; split; reflexivity.
Defined.

(** ** The page count *)

(** C7, as stated, fails on two counts.  An error while reading one page
    link only skips that link: with a second link reading 5 the page count
    is 5, not 1.  And a page count of 1 does not make the run scrape one
    page when [max_pages] is negative: the loop is not entered. *)
Lemma total_pages_not_always_one :
  (∃ s',
     get_total_pages (Demo.world_of (Demo.cfg true None) [])
       {| shown := Some (Demo.loads Demo.flaky_links); calls := [];
          all_jobs := []; should_stop := None |}
     = Some (Ok 5, s'))
  ∧ (∃ s',
       scrape (Demo.cfg true None)
         (Demo.world_of (Demo.cfg true None) Demo.single_page)
         None None None (Some (-1)) initial_state
       = Some (Ok [], s')
       ∧ total_pages_of
           (Demo.world_of (Demo.cfg true None) Demo.single_page)
           (Some (page_at (Demo.cfg true None)
                    (Demo.world_of (Demo.cfg true None) Demo.single_page)
                    None None 1)) = 1
       ∧ calls s'
         = [CallGoto (build_jobs_url (Demo.cfg true None) None None 1);
            CallPagination]).
Proof.
  split.
  - eexists. vm_compute. reflexivity.
  - eexists. split; [vm_compute; reflexivity|]. split; reflexivity.
Qed.

(** C7, amended.  [get_total_pages] never fails.  It returns exactly 1 when
    the pagination metadata is missing: the query for the pagination
    element raises or finds no element, the query for its page links raises
    or finds no link, or no page number is read on any link (a link is
    passed over when its [inner_text()] raises, when [isdigit] turns its
    stripped text down, or when [int] raises on it; what counts as white
    space and as a digit is for the interpreter to say).  A run whose page
    1 loads with the metadata missing, and whose page limit is not
    negative, then fetches and scrapes exactly one page. *)
Theorem total_pages_defaults_to_one
    (cfg : settings) (w : world) (cat lang : option string)
    (existing : option (gset string)) (max_pages : option Z) (s : state) :
  (∃ n, get_total_pages w s = Some (Ok n, logged [CallPagination] s))
  ∧ (∀ p, shown s = Some p → pagination_missing w (document p) →
          get_total_pages w s = Some (Ok 1, logged [CallPagination] s))
  ∧ (loads_ok (page_at cfg w cat lang 1) = true →
     pagination_missing w (document (page_at cfg w cat lang 1)) →
     0 ≤ default 0 (page_limit cfg max_pages) →
     ∃ s',
       scrape cfg w cat lang existing max_pages s
       = Some (Ok (page_jobs cfg w existing
                     (Some (page_at cfg w cat lang 1))).1, s')
       ∧ calls s'
         = calls s ++ [CallGoto (build_jobs_url cfg cat lang 1);
                       CallPagination; CallJobItems]).
Proof.
  split; [|split].
  - rewrite get_total_pages_run. by eexists.
  - intros p Hp Hmissing.
    by rewrite get_total_pages_run, Hp, total_pages_of_missing.
  - intros Hload Hmissing Hlimit.
    assert (capped cfg (total_pages_of w (Some (page_at cfg w cat lang 1)))
              max_pages = 1) as Hcap.
    { rewrite total_pages_of_missing, capped_limit by done.
      unfold page_limit in *.
      destruct (truthy_int _) eqn:Htruthy; [|done].
      destruct (match max_pages with
                | Some _ => max_pages
                | None => MAX_PAGES cfg
                end) as [m|]; [|done].
      simpl in *. apply negb_true_iff, Z.eqb_neq in Htruthy. lia. }
    destruct (scrape_reaches cfg w cat lang existing max_pages 0 s)
      as (fuel & s1 & Hrun & Hshown & Hcalls & Hjobs).
    { intros q Hq. by assert (q = 1) as -> by lia. }
    { intros q Hq. lia. }
    { rewrite Hcap. lia. }
    rewrite Hcap in Hrun.
    rewrite Hrun, scrape_while_step by lia. cbv zeta.
    assert (∀ A (x y : A) (b : bool),
              (if b then x else if 1 <? 1 + Z.of_nat 0 + 1 then x else y) = x)
      as Hif by (by intros A x y []).
    rewrite Hif.
    exists (after_page cfg w existing s1). split.
    + unfold after_page. cbn [all_jobs]. by rewrite Hjobs, Hshown.
    + unfold after_page. cbn [calls]. rewrite Hcalls. simpl.
      by rewrite <- app_assoc.
Qed.

Lemma total_pages_defaults_to_one_witness :
  ∃ s',
    scrape (Demo.cfg true None)
      (Demo.world_of (Demo.cfg true None) Demo.single_page)
      None None None (Some 5) initial_state
    = Some (Ok [Demo.job_of "a" "x"; Demo.job_of "b" "x"], s')
    ∧ calls s'
      = [CallGoto (build_jobs_url (Demo.cfg true None) None None 1);
         CallPagination; CallJobItems].
Proof.
  pose proof (total_pages_defaults_to_one
                (Demo.cfg true None)
                (Demo.world_of (Demo.cfg true None) Demo.single_page)
                None None None (Some 5) initial_state) as (_ & _ & H).
  apply H.
  - reflexivity.
  - exact I.
  - vm_compute. discriminate.
Defined.

(** ** What the walk returns *)

(** C2, as stated, fails: what [scrape] returns is the list of records and
    nothing else.  A run that stopped on a known job and a run that ended
    at the last page return the same value. *)
Lemma same_result_with_and_without_early_stop :
  ∃ s1 s2,
    scrape (Demo.cfg true None)
      (Demo.world_of (Demo.cfg true None) Demo.known_in_the_middle)
      None None (Some {["J1|Acme"]}) None initial_state
    = Some (Ok [Demo.job_of "J2" "Beta"], s1)
    ∧ scrape (Demo.cfg true None)
        (Demo.world_of (Demo.cfg true None) Demo.only_new)
        None None (Some {["J1|Acme"]}) None initial_state
      = Some (Ok [Demo.job_of "J2" "Beta"], s2)
    ∧ should_stop s1 = Some true
    ∧ should_stop s2 = Some false.
Proof.
  do 2 eexists.
  split; [vm_compute; reflexivity|].
  split; [vm_compute; reflexivity|].
  split; reflexivity.
Qed.

(** C2, amended.  Every run of [scrape] returns the accumulated list of
    records and only that.  The stop flag stays inside the walk, as the
    local [should_stop]: when the run ends it is true exactly when the run
    ended right after listing a page on which stopping is enabled and some
    usable record has a known key; it is not true after a failed fetch; and
    it is false when the run ended after listing a page without such a
    record. *)
Theorem scrape_returns_records_only
    (cfg : settings) (w : world) (cat lang : option string)
    (existing : option (gset string)) (max_pages : option Z) (s : state) :
  ∃ s' cs,
    scrape cfg w cat lang existing max_pages s = Some (Ok (all_jobs s'), s')
    ∧ calls s' = calls s ++ cs
    ∧ (should_stop s' = Some true
       ↔ last cs = Some CallJobItems
         ∧ STOP_ON_KNOWN_JOB cfg = true
         ∧ ∃ j, j ∈ usable_jobs cfg w (job_elements_of (shown s'))
                ∧ job_key j ∈ default ∅ existing)
    ∧ (∀ url, last cs = Some (CallGoto url) →
              loads_ok (site w url) = false ∧ should_stop s' ≠ Some true)
    ∧ (last cs = Some CallJobItems →
       (∀ j, j ∈ usable_jobs cfg w (job_elements_of (shown s')) →
             job_key j ∉ default ∅ existing) →
       should_stop s' = Some false).
Proof.
  destruct (scrape_exit cfg w cat lang existing max_pages s)
    as (s' & cs & Hrun & Hcalls & Hexit).
  exists s', cs. split; [done|]. split; [done|].
  pose proof (scrape_items_stop_iff cfg w (default ∅ existing)
                (job_elements_of (shown s'))) as Hiff.
  fold (page_jobs cfg w existing (shown s')) in Hiff.
  destruct (last cs) as [[url| |]|]; [| | |done].
  - destruct Hexit as [Hload Hflag].
    split; [|split].
    + split; [|by intros [? _]].
      intros Htrue. rewrite Htrue in Hflag. by destruct Hflag.
    + intros ? [= <-]. split; [done|].
      intros Htrue. rewrite Htrue in Hflag. by destruct Hflag.
    + done.
  - split; [|split]; [|done|done].
    split; [by rewrite Hexit|by intros [? _]].
  - split; [|split]; [|done|].
    + rewrite Hexit. split.
      * intros [= Htrue]. split; [done|]. by apply Hiff.
      * intros [_ Hstop]. f_equal. by apply Hiff.
    + intros _ Hnone. rewrite Hexit. f_equal.
      apply not_true_is_false. intros [_ (j & Hj & Hin)]%Hiff.
      by apply (Hnone j).
Qed.

Lemma scrape_returns_records_only_witness :
  ∃ s',
    scrape (Demo.cfg true None)
      (Demo.world_of (Demo.cfg true None) Demo.known_in_the_middle)
      None None (Some {["J1|Acme"]}) None initial_state
    = Some (Ok [Demo.job_of "J2" "Beta"], s')
    ∧ should_stop s' = Some true.
Proof.
  destruct (scrape_returns_records_only
              (Demo.cfg true None)
              (Demo.world_of (Demo.cfg true None) Demo.known_in_the_middle)
              None None (Some {["J1|Acme"]}) None initial_state)
    as (s' & cs & Hrun & Hcalls & Hiff & _).
  exists s'.
  assert (all_jobs s' = [Demo.job_of "J2" "Beta"]
          ∧ calls s'
            = [CallGoto (build_jobs_url (Demo.cfg true None) None None 1);
               CallPagination; CallJobItems]
          ∧ shown s' = Some (Demo.loads
                               (Demo.doc [] ["J2|Beta"; "J1|Acme"; "J3|Gamma"])))
    as (Hjobs & Hcs & Hshown).
  { vm_compute in Hrun. injection Hrun as Hjobs <-. repeat split. }
  split; [by rewrite Hrun, Hjobs|].
  apply Hiff. rewrite Hshown. rewrite Hcs in Hcalls. simpl in Hcalls.
  subst cs. split; [reflexivity|]. split; [reflexivity|].
  exists (Demo.job_of "J1" "Acme"). split.
  - vm_compute. right. left.
  - apply elem_of_singleton. reflexivity.
Defined.

(** * More of the scraper *)

(** ** [build_jobs_url] *)

Lemma string_length_app (a b : string) :
  String.length (a +:+ b) = (String.length a + String.length b)%nat.
Proof. induction a as [|c a IH]; simpl; [done|]. by rewrite IH. Qed.

Lemma string_app_not_self (a b : string) : b ≠ "" → a ≠ a +:+ b.
Proof.
  intros Hb Heq. apply (f_equal String.length) in Heq.
  rewrite string_length_app in Heq. destruct b; [done|]. simpl in Heq. lia.
Qed.

(** X1.  The pages of one listing have pairwise distinct URLs: for page
    numbers from 1 on, equal URLs mean equal page numbers.  Page 1 is the
    URL without a page parameter. *)
Theorem build_jobs_url_injective
    (cfg : settings) (cat lang : option string) (p q : Z) :
  1 ≤ p → 1 ≤ q →
  build_jobs_url cfg cat lang p = build_jobs_url cfg cat lang q →
  p = q.
Proof.
  intros Hp Hq. unfold build_jobs_url.
  set (base := JOBS_URL cfg +:+ _).
  destruct (1 <? p) eqn:Hp1, (1 <? q) eqn:Hq1; intros Heq.
  - apply (inj (String.app base)), (inj (String.app "&page=")) in Heq.
    by apply (inj pretty) in Heq.
  - symmetry in Heq. by apply string_app_not_self in Heq.
  - by apply string_app_not_self in Heq.
  - apply Z.ltb_ge in Hp1, Hq1. lia.
Qed.

Lemma build_jobs_url_injective_witness :
  build_jobs_url (Demo.cfg true None) None None 2
  ≠ build_jobs_url (Demo.cfg true None) None None 3.
Proof.
  intros Heq.
  apply (build_jobs_url_injective (Demo.cfg true None) None None 2 3) in Heq;
    lia.
Defined.

(** ** [get_total_pages] *)

Lemma int_go_nonneg s : ∀ acc, 0 ≤ acc → 0 ≤ PyStr.int_go acc s.
Proof.
  induction s as [|a s IH]; intros acc Hacc; simpl; [done|].
  apply IH. unfold PyStr.digit_of.
  destruct (Ascii.is_nat a) as [d|]; simpl; lia.
Qed.

Lemma ascii_int_nonneg text m : int ascii_text text = Ok m → 0 ≤ m.
Proof.
  cbn [int ascii_text]. unfold PyStr.int.
  destruct (_ <? _)%nat; [done|]. intros [= <-]. by apply int_go_nonneg.
Qed.

Lemma elem_of_page_numbers_of (w : world) n page_links :
  n ∈ page_numbers_of w page_links
  ↔ ∃ text, Ok text ∈ page_links
            ∧ isdigit (python w) (strip (python w) text) = true
            ∧ int (python w) (strip (python w) text) = Ok n.
Proof.
  induction page_links as [|link rest IH]; cbn [page_numbers_of].
  - split; [by intros ?%elem_of_nil|].
    by intros (text & ?%elem_of_nil & _).
  - assert ((∃ text, Ok text ∈ rest
                     ∧ isdigit (python w) (strip (python w) text) = true
                     ∧ int (python w) (strip (python w) text) = Ok n)
            → ∃ text, Ok text ∈ link :: rest
                      ∧ isdigit (python w) (strip (python w) text) = true
                      ∧ int (python w) (strip (python w) text) = Ok n)
      as Hlater.
    { intros (t & Hin & Hd & Hn). exists t. split; [by right|done]. }
    destruct link as [text|e]; cbv zeta.
    + destruct (isdigit (python w) (strip (python w) text)) eqn:Hdigit;
        [destruct (int (python w) (strip (python w) text)) as [k|e]
           eqn:Hint|].
      * rewrite elem_of_cons, IH. split.
        -- intros [->|Hrest]; [|by apply Hlater].
           exists text. split; [by left|done].
        -- intros (t & [Heq|Hin]%elem_of_cons & Hd & Hn).
           ++ left. congruence.
           ++ right. by exists t.
      * rewrite IH. split; [done|].
        intros (t & [Heq|Hin]%elem_of_cons & Hd & Hn);
          [congruence|by exists t].
      * rewrite IH. split; [done|].
        intros (t & [Heq|Hin]%elem_of_cons & Hd & Hn);
          [congruence|by exists t].
    + rewrite IH. split; [done|].
      intros (t & [Heq|Hin]%elem_of_cons & Hd & Hn); [done|by exists t].
Qed.

Lemma max_or_1_max page_numbers :
  page_numbers ≠ [] →
  max_or_1 page_numbers ∈ page_numbers
  ∧ ∀ m, m ∈ page_numbers → m ≤ max_or_1 page_numbers.
Proof.
  destruct page_numbers as [|n rest]; [done|]. intros _. simpl.
  revert n. induction rest as [|k rest IH]; intros n; simpl.
  - split; [by left|]. intros m ->%list_elem_of_singleton. lia.
  - destruct (IH n) as [Hin Hmax]. split.
    + destruct (Z.max_spec k (foldr Z.max n rest)) as [[_ ->]|[_ ->]].
      * apply elem_of_cons in Hin as [->|Hin];
          [by left|by right; right].
      * right. by left.
    + intros m [Hm|[Hm|Hm]%elem_of_cons]%elem_of_cons.
      * subst m. specialize (Hmax n ltac:(by left)). lia.
      * subst m. lia.
      * specialize (Hmax m ltac:(by right)). lia.
Qed.

(** X2.  [get_total_pages] never fails.  On a page whose pagination lists
    links, the number returned is the largest page number read on a link (a
    link whose text [isdigit] accepts once stripped and [int] converts),
    wherever that link stands among the others, and it is 1 when no page
    number is read on any link.  A link whose text cannot be read, is not
    made of digits or is not converted by [int] has no part in it.  The
    number is not negative as long as [int] gives no negative number for a
    text made of digits. *)
Theorem get_total_pages_is_largest_link (w : world) (s : state) :
  ∃ n,
    get_total_pages w s = Some (Ok n, logged [CallPagination] s)
    ∧ ((∀ text m, isdigit (python w) text = true →
                  int (python w) text = Ok m → 0 ≤ m) →
       0 ≤ n)
    ∧ ∀ p page_links,
        shown s = Some p →
        dom_pagination (document p) = Ok (Some (Ok page_links)) →
        (∀ text m, Ok text ∈ page_links →
                   isdigit (python w) (strip (python w) text) = true →
                   int (python w) (strip (python w) text) = Ok m →
                   m ≤ n
                   ∧ ∃ text', Ok text' ∈ page_links
                       ∧ isdigit (python w) (strip (python w) text') = true
                       ∧ int (python w) (strip (python w) text') = Ok n)
        ∧ (Forall (not_numeric w) page_links → n = 1)
        ∧ (n = 1
           ∨ ∃ text, Ok text ∈ page_links
                     ∧ isdigit (python w) (strip (python w) text) = true
                     ∧ int (python w) (strip (python w) text) = Ok n).
Proof.
  exists (total_pages_of w (shown s)).
  split; [apply get_total_pages_run|].
  split.
  - intros Hint.
    assert (∀ page_links,
              page_numbers_of w page_links ≠ [] →
              0 ≤ max_or_1 (page_numbers_of w page_links)) as Hnonneg.
    { intros page_links Hne.
      destruct (max_or_1_max _ Hne) as [Hin _].
      apply elem_of_page_numbers_of in Hin as (text & _ & Hdigit & Hm).
      by apply (Hint _ _ Hdigit Hm). }
    unfold total_pages_of. destruct (shown s) as [p|]; [|lia].
    destruct (dom_pagination (document p)) as [[[[|link links]|e]|]|e];
      try lia.
    destruct (page_numbers_of w (link :: links)) eqn:Hnums; [simpl; lia|].
    rewrite <- Hnums. apply Hnonneg. by rewrite Hnums.
  - intros p page_links -> Hpag. unfold total_pages_of. rewrite Hpag.
    destruct page_links as [|link links].
    { split; [by intros text m ?%elem_of_nil|]. split; [done|by left]. }
    split; [|split].
    + intros text m Hin Hdigit Hm.
      assert (m ∈ page_numbers_of w (link :: links))
        as Hmem by (apply elem_of_page_numbers_of; by exists text).
      destruct (max_or_1_max (page_numbers_of w (link :: links)))
        as [Hmax Hle].
      { intros Hnone. rewrite Hnone in Hmem. by apply elem_of_nil in Hmem. }
      split; [by apply Hle|]. by apply elem_of_page_numbers_of.
    + intros Hnone. by rewrite (page_numbers_of_not_numeric w _ Hnone).
    + destruct (page_numbers_of w (link :: links)) as [|k nums] eqn:Hnums;
        [by left|].
      rewrite <- Hnums. right. apply elem_of_page_numbers_of.
      apply max_or_1_max. by rewrite Hnums.
Qed.

Lemma get_total_pages_is_largest_link_witness :
  ∃ n,
    get_total_pages (Demo.world_of (Demo.cfg true None) [])
      {| shown := Some (Demo.loads (Demo.doc ["1"; " 7 "; "Next"; "3"] []));
         calls := []; all_jobs := []; should_stop := None |}
    = Some (Ok n,
            {| shown := Some (Demo.loads
                                (Demo.doc ["1"; " 7 "; "Next"; "3"] []));
               calls := [CallPagination]; all_jobs := [];
               should_stop := None |})
    ∧ 0 ≤ n
    ∧ 7 ≤ n.
Proof.
  destruct (get_total_pages_is_largest_link
              (Demo.world_of (Demo.cfg true None) [])
              {| shown := Some (Demo.loads
                                  (Demo.doc ["1"; " 7 "; "Next"; "3"] []));
                 calls := []; all_jobs := []; should_stop := None |})
    as (n & Hrun & Hnonneg & Hlinks).
  exists n. split; [exact Hrun|].
  split.
  { apply Hnonneg. intros text m _. apply ascii_int_nonneg. }
  destruct (Hlinks _ _ eq_refl eq_refl) as [Hmax _].
  apply (Hmax " 7 " 7); [|reflexivity|reflexivity].
  right. left.
Defined.

(** ** [get_job_elements] *)

Lemma job_htmls_of_sublist job_elements :
  (Ok <$> job_htmls_of job_elements) `sublist_of` job_elements.
Proof.
  induction job_elements as [|[html|e] rest IH]; simpl.
  - done.
  - by apply sublist_skip.
  - by apply sublist_cons.
Qed.

Lemma elem_of_job_htmls_of html job_elements :
  html ∈ job_htmls_of job_elements ↔ Ok html ∈ job_elements.
Proof.
  induction job_elements as [|[h|e] rest IH]; simpl.
  - by rewrite !elem_of_nil.
  - rewrite !elem_of_cons, IH. split; intros [H|H]; auto.
    + left. by f_equal.
    + left. by injection H.
  - rewrite elem_of_cons, IH. split; [auto|]. by intros [H|H].
Qed.

Lemma job_htmls_of_filter job_elements :
  Ok <$> job_htmls_of job_elements = List.filter readable job_elements.
Proof.
  induction job_elements as [|[html|e] rest IH]; [done| |done].
  cbn [job_htmls_of List.filter readable fmap list_fmap]. f_equal. apply IH.
Qed.

(** X3.  [get_job_elements] never raises.  When the query for the job items
    raises it returns the empty list; otherwise it returns the HTML of
    exactly the elements that could be read, each once for every element
    that shows it and in page order: the list of elements with the
    unreadable ones taken out.  An element that cannot be read is left out
    without the ones after it being lost, and when every element can be
    read the list is the whole page. *)
Theorem get_job_elements_keeps_readable (s : state) (p : page_load) :
  shown s = Some p →
  ∃ job_htmls,
    get_job_elements s = Some (Ok job_htmls, logged [CallJobItems] s)
    ∧ (∀ e, dom_job_items (document p) = Raise e → job_htmls = [])
    ∧ (∀ job_elements,
         dom_job_items (document p) = Ok job_elements →
         (Ok <$> job_htmls) `sublist_of` job_elements
         ∧ (∀ html, html ∈ job_htmls ↔ Ok html ∈ job_elements)
         ∧ Ok <$> job_htmls = List.filter readable job_elements
         ∧ (Forall (λ element, readable element = true) job_elements →
            Ok <$> job_htmls = job_elements)).
Proof.
  intros Hshown. exists (job_elements_of (shown s)).
  split; [apply get_job_elements_run|].
  rewrite Hshown. simpl. split.
  - by intros e ->.
  - intros job_elements ->. split; [|split; [|split]].
    + apply job_htmls_of_sublist.
    + intros html. apply elem_of_job_htmls_of.
    + apply job_htmls_of_filter.
    + intros Hall. rewrite job_htmls_of_filter.
      induction Hall as [|element rest Hread _ IH]; [done|].
      cbn [List.filter]. rewrite Hread. by f_equal.
Qed.

Lemma get_job_elements_keeps_readable_witness :
  get_job_elements
    {| shown := Some (Demo.loads
                        {| dom_pagination := Ok None;
                           dom_job_items :=
                             Ok [Ok "a|x"; Raise OtherException; Ok "a|x";
                                 Ok "b|x"] |});
       calls := []; all_jobs := []; should_stop := None |}
  = Some (Ok ["a|x"; "a|x"; "b|x"],
          {| shown := Some (Demo.loads
                              {| dom_pagination := Ok None;
                                 dom_job_items :=
                                   Ok [Ok "a|x"; Raise OtherException;
                                       Ok "a|x"; Ok "b|x"] |});
             calls := [CallJobItems]; all_jobs := [];
             should_stop := None |}).
Proof.
  destruct (get_job_elements_keeps_readable
              {| shown := Some (Demo.loads
                                  {| dom_pagination := Ok None;
                                     dom_job_items :=
                                       Ok [Ok "a|x"; Raise OtherException;
                                           Ok "a|x"; Ok "b|x"] |});
                 calls := []; all_jobs := []; should_stop := None |}
              _ eq_refl) as (job_htmls & Hrun & _ & Hread).
  destruct (Hread _ eq_refl) as (_ & _ & Hexact & _).
  rewrite Hrun. cbn [List.filter readable] in Hexact.
  destruct job_htmls as [|h1 [|h2 [|h3 [|h4 rest]]]]; try discriminate.
  injection Hexact as -> -> ->. reflexivity.
Defined.

(** ** [scrape_page] *)

(** When the loop of [scrape_page] stops, the records kept are the usable
    records that come before a usable record with a known key. *)
Lemma scrape_items_stopped cfg w existing job_elements :
  (scrape_items cfg w existing job_elements []).2 = true →
  ∃ j rest,
    usable_jobs cfg w job_elements
    = (scrape_items cfg w existing job_elements []).1 ++ j :: rest
    ∧ job_key j ∈ existing.
Proof.
  induction job_elements as [|job_html rest IH]; simpl; [done|].
  destruct (parse_job_element_from_html w job_html (BASE_URL cfg))
    as [job_data|e]; [|done].
  destruct (truthy_str (job_id job_data)); simpl; [|done].
  destruct (STOP_ON_KNOWN_JOB cfg) eqn:Hstop; simpl.
  - case_bool_decide as Hin; simpl.
    + intros _. by exists job_data, (usable_jobs cfg w rest).
    + rewrite scrape_items_acc. simpl. intros Htrue.
      destruct (IH Htrue) as (j & rest' & Heq & Hj).
      exists j, rest'. by rewrite Heq at 1.
  - rewrite scrape_items_acc. simpl. intros Htrue.
    destruct (IH Htrue) as (j & rest' & Heq & Hj).
    exists j, rest'. by rewrite Heq at 1.
Qed.

(** X4.  [scrape_page] never raises and returns the usable records of the
    page shown (those that parse and carry an id) up to the first one whose
    key is known: with the stop flag set, the records returned are followed
    on the page by a usable record with a known key, and none of them has a
    known key; with the stop flag clear, they are all the usable records of
    the page.  The flag is set exactly when stopping is enabled and the
    page has a usable record with a known key. *)
Theorem scrape_page_up_to_first_known
    (cfg : settings) (w : world) (existing : option (gset string))
    (skip_scroll : bool) (s : state) :
  let usable := usable_jobs cfg w (job_elements_of (shown s)) in
  let known := default ∅ existing in
  ∃ jobs stop,
    scrape_page cfg w existing skip_scroll s
    = Some (Ok (jobs, stop), logged [CallJobItems] s)
    ∧ (stop = true
       ↔ STOP_ON_KNOWN_JOB cfg = true
         ∧ ∃ j, j ∈ usable ∧ job_key j ∈ known)
    ∧ (stop = true →
       (∃ j rest, usable = jobs ++ j :: rest ∧ job_key j ∈ known)
       ∧ ∀ j, j ∈ jobs → job_key j ∉ known)
    ∧ (stop = false → jobs = usable).
Proof.
  intros usable known.
  destruct (page_jobs cfg w existing (shown s)) as [jobs stop] eqn:Hpage.
  exists jobs, stop. split; [by rewrite scrape_page_run, Hpage|].
  unfold page_jobs in Hpage. fold known in Hpage.
  pose proof (scrape_items_stop_iff cfg w known (job_elements_of (shown s)))
    as Hiff.
  rewrite Hpage in Hiff. simpl in Hiff.
  split; [done|]. split.
  - intros ->. split.
    + pose proof (scrape_items_stopped cfg w known
                    (job_elements_of (shown s))) as Hstopped.
      rewrite Hpage in Hstopped. simpl in Hstopped. by apply Hstopped.
    + apply Forall_forall.
      pose proof (scrape_items_unknown cfg w known
                    (job_elements_of (shown s))
                    (proj1 (proj1 Hiff eq_refl)) [] (Forall_nil_2 _)) as Hunk.
      by rewrite Hpage in Hunk.
  - intros ->.
    destruct (STOP_ON_KNOWN_JOB cfg) eqn:Hstop.
    + rewrite scrape_items_no_known in Hpage; [by injection Hpage|].
      right. intros j Hj Hin.
      assert (false = true) as Habs; [|done].
      apply Hiff. split; [done|]. by exists j.
    + rewrite scrape_items_no_known in Hpage by (by left).
      by injection Hpage.
Qed.

Lemma scrape_page_up_to_first_known_witness :
  ∃ jobs,
    scrape_page (Demo.cfg true None)
      (Demo.world_of (Demo.cfg true None) Demo.known_in_the_middle)
      (Some {["J1|Acme"]}) true
      {| shown := Some (Demo.loads
                          (Demo.doc [] ["J2|Beta"; "J1|Acme"; "J3|Gamma"]));
         calls := []; all_jobs := []; should_stop := None |}
    = Some (Ok (jobs, true),
            {| shown := Some (Demo.loads
                                (Demo.doc [] ["J2|Beta"; "J1|Acme";
                                              "J3|Gamma"]));
               calls := [CallJobItems]; all_jobs := [];
               should_stop := None |})
    ∧ ∀ j, j ∈ jobs → job_key j ∉ ({["J1|Acme"]} : gset string).
Proof.
  destruct (scrape_page_up_to_first_known
              (Demo.cfg true None)
              (Demo.world_of (Demo.cfg true None) Demo.known_in_the_middle)
              (Some {["J1|Acme"]}) true
              {| shown := Some (Demo.loads
                                  (Demo.doc [] ["J2|Beta"; "J1|Acme";
                                                "J3|Gamma"]));
                 calls := []; all_jobs := []; should_stop := None |})
    as (jobs & stop & Hrun & Hiff & Hstop & _).
  assert (stop = true) as ->.
  { apply Hiff. split; [reflexivity|].
    exists (Demo.job_of "J1" "Acme"). split.
    - vm_compute. right. left.
    - apply elem_of_singleton. reflexivity. }
  exists jobs. split; [exact Hrun|].
  apply (Hstop eq_refl).
Defined.

(** X5.  Knowing more keys can only shorten what [scrape_page]'s loop keeps:
    with a larger set of known keys the records kept are a prefix of the
    records kept with the smaller set. *)
Theorem scrape_items_shrinks_with_known
    (cfg : settings) (w : world) (existing existing' : gset string)
    (job_elements : list string) :
  existing ⊆ existing' →
  (scrape_items cfg w existing' job_elements []).1
  `prefix_of` (scrape_items cfg w existing job_elements []).1.
Proof.
  intros Hsub.
  induction job_elements as [|job_html rest IH]; simpl; [done|].
  destruct (parse_job_element_from_html w job_html (BASE_URL cfg))
    as [job_data|e]; [|done].
  destruct (truthy_str (job_id job_data)); simpl; [|done].
  destruct (STOP_ON_KNOWN_JOB cfg); simpl.
  - destruct (decide (job_key job_data ∈ existing')) as [Hin'|Hin'].
    + rewrite (bool_decide_eq_true_2 _ Hin'). simpl. apply prefix_nil.
    + rewrite (bool_decide_eq_false_2 _ Hin').
      rewrite bool_decide_eq_false_2 by set_solver.
      rewrite (scrape_items_acc cfg w existing'),
        (scrape_items_acc cfg w existing). simpl.
      by apply prefix_cons.
  - rewrite (scrape_items_acc cfg w existing'),
      (scrape_items_acc cfg w existing). simpl.
    by apply prefix_cons.
Qed.

Lemma scrape_items_shrinks_with_known_witness :
  (scrape_items (Demo.cfg true None) (Demo.world_of (Demo.cfg true None) [])
     ({["J1|Acme"]} ∪ {["J3|Gamma"]}) ["J2|Beta"; "J1|Acme"; "J3|Gamma"] []).1
  `prefix_of`
  (scrape_items (Demo.cfg true None) (Demo.world_of (Demo.cfg true None) [])
     {["J3|Gamma"]} ["J2|Beta"; "J1|Acme"; "J3|Gamma"] []).1.
Proof.
  apply scrape_items_shrinks_with_known.
  apply union_subseteq_r.
Defined.

(** ** [scrape] *)

Section RunFacts.

Context (cfg : settings) (w : world) (cat lang : option string)
        (existing : option (gset string)).

(** What holds of every record [scrape_page] can return holds of every
    record the loop accumulates. *)
Lemma scrape_while_Forall_pages (P : job → Prop) total :
  (∀ p, Forall P (page_jobs cfg w existing p).1) →
  ∀ fuel page s r s',
    Forall P (all_jobs s) →
    scrape_while cfg w fuel cat lang existing page total s = Some (r, s') →
    Forall P (all_jobs s').
Proof.
  intros HP. induction fuel as [|fuel IH]; intros page s r s' Hs Hrun.
  - simpl in Hrun. destruct (page <=? total); [done|].
    by injection Hrun as _ <-.
  - destruct (decide (page ≤ total)) as [Hle|Hgt].
    + rewrite scrape_while_step in Hrun by done. simpl in Hrun.
      assert (Forall P (all_jobs (after_page cfg w existing s))) as Hs1.
      { simpl. apply Forall_app. by split. }
      destruct (page_jobs _ _ _ _).2; [by injection Hrun as _ <-|].
      destruct (total <? page + 1); [by injection Hrun as _ <-|].
      destruct (loads_ok _); [|by injection Hrun as _ <-].
      by eapply IH; [|apply Hrun].
    + rewrite scrape_while_done in Hrun by lia.
      by injection Hrun as _ <-.
Qed.

(** The shape of the loop's work from a loaded page [page]: it lists the job
    items of [k] consecutive pages and keeps what [scrape_page] returned on
    them, and it fetches the [g] pages after [page], in order, where [g] is
    [k] or one less. *)
Lemma scrape_while_shape total fuel :
  ∀ page s r s',
  shown s = Some (page_at cfg w cat lang page) →
  scrape_while cfg w fuel cat lang existing page total s = Some (r, s') →
  ∃ (k g : nat) cs,
    calls s' = calls s ++ cs
    ∧ all_jobs s'
      = all_jobs s ++ jobs_of_pages cfg w cat lang existing (pages_from page k)
    ∧ count_job_items cs = k
    ∧ goto_urls cs = build_jobs_url cfg cat lang <$> pages_from (page + 1) g
    ∧ (g ≤ k ≤ S g)%nat
    ∧ Z.of_nat g ≤ Z.max 0 (total - page)
    ∧ Z.of_nat k ≤ Z.max 0 (total - page + 1).
Proof.
  induction fuel as [|fuel IH]; intros page s r s' Hshown Hrun.
  - simpl in Hrun. destruct (page <=? total); [done|].
    injection Hrun as _ <-. exists O, O, []. rewrite !app_nil_r.
    repeat split; simpl; lia.
  - destruct (decide (page ≤ total)) as [Hle|Hgt].
    + rewrite scrape_while_step in Hrun by done. cbv zeta in Hrun.
      assert (all_jobs (after_page cfg w existing s)
              = all_jobs s
                ++ jobs_of_pages cfg w cat lang existing (pages_from page 1))
        as Hjobs1.
      { simpl. by rewrite Hshown, app_nil_r. }
      destruct (page_jobs cfg w existing (shown s)).2.
      { injection Hrun as _ <-. exists 1%nat, O, [CallJobItems].
        repeat split; simpl; try done; lia. }
      destruct (total <? page + 1) eqn:Hlast.
      { injection Hrun as _ <-. exists 1%nat, O, [CallJobItems].
        repeat split; simpl; try done; lia. }
      apply Z.ltb_ge in Hlast.
      destruct (loads_ok (site w (build_jobs_url cfg cat lang (page + 1))))
        eqn:Hload.
      * apply IH in Hrun
          as (k & g & cs & Hcalls & Hjobs & Hk & Hg & Hkg & Hgb & Hkb);
          [|by apply after_load_shown].
        exists (S k), (S g),
          (CallJobItems
             :: CallGoto (build_jobs_url cfg cat lang (page + 1)) :: cs).
        split; [rewrite Hcalls; simpl; by rewrite <- !app_assoc|].
        split.
        { rewrite Hjobs. cbn [all_jobs after_load]. rewrite Hjobs1.
          rewrite <- app_assoc. f_equal. unfold jobs_of_pages. simpl.
          by rewrite app_nil_r. }
        split; [simpl; by rewrite Hk|].
        split; [simpl; by rewrite Hg|].
        repeat split; lia.
      * injection Hrun as _ <-.
        exists 1%nat, 1%nat,
          [CallJobItems; CallGoto (build_jobs_url cfg cat lang (page + 1))].
        split; [simpl; by rewrite <- !app_assoc|].
        repeat split; simpl; try done; lia.
    + rewrite scrape_while_done in Hrun by lia.
      injection Hrun as _ <-. exists O, O, []. rewrite !app_nil_r.
      repeat split; simpl; lia.
Qed.

(** The shape of a run: page 1 is fetched, then the [g] pages after it, in
    order; the job items of the first [k] pages are listed, and the result
    is what [scrape_page] returned on them. *)
Lemma scrape_shape max_pages s :
  let cap :=
    capped cfg (total_pages_of w (Some (page_at cfg w cat lang 1))) max_pages in
  ∃ s' (k g : nat) cs,
    scrape cfg w cat lang existing max_pages s = Some (Ok (all_jobs s'), s')
    ∧ calls s' = calls s ++ cs
    ∧ all_jobs s' = jobs_of_pages cfg w cat lang existing (pages_from 1 k)
    ∧ count_job_items cs = k
    ∧ goto_urls cs = build_jobs_url cfg cat lang <$> pages_from 1 (S g)
    ∧ (k ≤ S g)%nat
    ∧ Z.of_nat g ≤ Z.max 0 (cap - 1)
    ∧ Z.of_nat k ≤ Z.max 0 cap.
Proof.
  intros cap. rewrite scrape_run. cbv zeta.
  destruct (loads_ok (page_at cfg w cat lang 1)) eqn:Hload.
  - rewrite after_load_shown by done.
    fold (page_at cfg w cat lang 1). fold cap.
    set (s1 := logged _ _).
    destruct (scrape_while_returns cfg w cat lang existing cap
                (Z.to_nat cap) 1 s1) as [s' Hrun]; [lia|].
    rewrite Hrun.
    assert (shown s1 = Some (page_at cfg w cat lang 1)) as Hshown
      by (by apply after_load_shown).
    destruct (scrape_while_shape cap _ _ _ _ _ Hshown Hrun)
      as (k & g & cs & Hcalls & Hjobs & Hk & Hg & Hkg & Hgb & Hkb).
    exists s', k, g,
      (CallGoto (build_jobs_url cfg cat lang 1) :: CallPagination :: cs).
    split; [done|].
    split; [rewrite Hcalls; unfold s1; simpl; by rewrite <- !app_assoc|].
    split; [by rewrite Hjobs|].
    split; [done|]. split; [simpl; by rewrite Hg|].
    repeat split; lia.
  - exists (after_load w (build_jobs_url cfg cat lang 1) (cleared s)),
      O, O, [CallGoto (build_jobs_url cfg cat lang 1)].
    repeat split; simpl; try done; lia.
Qed.

End RunFacts.

(** X6.  With stopping on a known job enabled, [scrape] never returns a
    record whose key is among the known keys, whatever the site answers. *)
Theorem scrape_never_returns_known
    (cfg : settings) (w : world) (cat lang : option string)
    (existing : option (gset string)) (max_pages : option Z) (s : state) :
  STOP_ON_KNOWN_JOB cfg = true →
  ∃ jobs s',
    scrape cfg w cat lang existing max_pages s = Some (Ok jobs, s')
    ∧ ∀ j, j ∈ jobs → job_key j ∉ default ∅ existing.
Proof.
  intros Hstop. rewrite scrape_run. cbv zeta.
  destruct (loads_ok _).
  - set (total := capped _ _ _). set (s1 := logged _ _).
    destruct (scrape_while_returns cfg w cat lang existing total
                (Z.to_nat total) 1 s1) as [s' Hrun]; [lia|].
    rewrite Hrun. exists (all_jobs s'), s'. split; [done|].
    apply Forall_forall.
    eapply (scrape_while_Forall_pages cfg w cat lang existing
              (λ j, job_key j ∉ default ∅ existing)); [| |apply Hrun].
    + intros p. by apply scrape_items_unknown.
    + done.
  - eexists [], _. split; [done|]. by intros j ?%elem_of_nil.
Qed.

Lemma scrape_never_returns_known_witness :
  ∃ jobs s',
    scrape (Demo.cfg true None)
      (Demo.world_of (Demo.cfg true None) Demo.listing)
      None None (Some {["J3|Gamma"]}) None initial_state
    = Some (Ok jobs, s')
    ∧ ∀ j, j ∈ jobs → job_key j ∉ ({["J3|Gamma"]} : gset string).
Proof.
  exact (scrape_never_returns_known
           (Demo.cfg true None)
           (Demo.world_of (Demo.cfg true None) Demo.listing)
           None None (Some {["J3|Gamma"]}) None initial_state eq_refl).
Defined.

(** X7.  Every run fetches the pages of the listing in order, starting with
    page 1 and without leaving one out or fetching one twice: the URLs
    handed to the browser are those of the pages 1, 2, ..., [g + 1], and
    [g + 1] is at most the larger of 1 and the capped page count. *)
Theorem scrape_fetches_pages_in_order
    (cfg : settings) (w : world) (cat lang : option string)
    (existing : option (gset string)) (max_pages : option Z) (s : state) :
  ∃ jobs s' cs (g : nat),
    scrape cfg w cat lang existing max_pages s = Some (Ok jobs, s')
    ∧ calls s' = calls s ++ cs
    ∧ goto_urls cs = build_jobs_url cfg cat lang <$> pages_from 1 (S g)
    ∧ Z.of_nat (S g)
      ≤ Z.max 1 (capped cfg
                   (total_pages_of w (Some (page_at cfg w cat lang 1)))
                   max_pages).
Proof.
  destruct (scrape_shape cfg w cat lang existing max_pages s)
    as (s' & k & g & cs & Hrun & Hcalls & _ & _ & Hgoto & _ & Hg & _).
  exists (all_jobs s'), s', cs, g.
  repeat split; try done. lia.
Qed.

(** X8.  The result of every run is made of whole pages, in page order: it
    is what [scrape_page] returned on page 1, then on page 2, and so on up
    to page [k], where [k] is the number of pages whose job items were
    listed; [k] is at most the number of pages fetched and at most the
    capped page count (or 0 when that is negative). *)
Theorem scrape_result_by_page
    (cfg : settings) (w : world) (cat lang : option string)
    (existing : option (gset string)) (max_pages : option Z) (s : state) :
  ∃ s' cs,
    scrape cfg w cat lang existing max_pages s
    = Some (Ok (jobs_of_pages cfg w cat lang existing
                  (pages_from 1 (count_job_items cs))), s')
    ∧ calls s' = calls s ++ cs
    ∧ (count_job_items cs ≤ length (goto_urls cs))%nat
    ∧ Z.of_nat (count_job_items cs)
      ≤ Z.max 0 (capped cfg
                   (total_pages_of w (Some (page_at cfg w cat lang 1)))
                   max_pages).
Proof.
  destruct (scrape_shape cfg w cat lang existing max_pages s)
    as (s' & k & g & cs & Hrun & Hcalls & Hjobs & Hk & Hgoto & Hkg & _ & Hkb).
  exists s', cs. rewrite Hk, Hgoto, <- Hjobs.
  repeat split; try done.
  rewrite length_fmap.
  assert (∀ page n, length (pages_from page n) = n) as Hlen.
  { intros page n. revert page.
    induction n as [|n IH]; intros page; simpl; [done|]. by rewrite IH. }
  by rewrite Hlen.
Qed.

(** X9.  With [max_pages = 1] a run fetches page 1 and nothing else,
    whatever page count the pagination announces, and lists the job items
    of at most one page. *)
Theorem scrape_one_page_only
    (cfg : settings) (w : world) (cat lang : option string)
    (existing : option (gset string)) (s : state) :
  ∃ jobs s' cs,
    scrape cfg w cat lang existing (Some 1) s = Some (Ok jobs, s')
    ∧ calls s' = calls s ++ cs
    ∧ goto_urls cs = [build_jobs_url cfg cat lang 1]
    ∧ (count_job_items cs ≤ 1)%nat.
Proof.
  destruct (scrape_shape cfg w cat lang existing (Some 1) s)
    as (s' & k & g & cs & Hrun & Hcalls & _ & Hk & Hgoto & Hkg & Hg & _).
  assert (capped cfg (total_pages_of w (Some (page_at cfg w cat lang 1)))
            (Some 1)
          = Z.min (total_pages_of w (Some (page_at cfg w cat lang 1))) 1)
    as Hcap by done.
  rewrite Hcap in Hg.
  assert (g = O) as ->.
  { revert Hg. generalize (total_pages_of w (Some (page_at cfg w cat lang 1))).
    intros total Hg. lia. }
  exists (all_jobs s'), s', cs.
  repeat split; try done. lia.
Qed.

Lemma goto_urls_visit_calls cfg cat lang pages :
  goto_urls (visit_calls cfg cat lang pages)
  = build_jobs_url cfg cat lang <$> pages.
Proof. induction pages as [|q pages IH]; simpl; [done|]. by rewrite IH. Qed.

(** X10.  [max_pages = 0] is no limit, and it sets the configured
    [MAX_PAGES] aside: when every page up to the page count read on page 1
    loads and none stops the loop, all of them are scraped. *)
Theorem scrape_zero_max_pages_is_unlimited
    (cfg : settings) (w : world) (cat lang : option string)
    (existing : option (gset string)) (s : state) :
  let total := total_pages_of w (Some (page_at cfg w cat lang 1)) in
  1 ≤ total →
  (∀ q, 1 ≤ q ≤ total →
        loads_ok (page_at cfg w cat lang q) = true
        ∧ (page_jobs cfg w existing
             (Some (page_at cfg w cat lang q))).2 = false) →
  ∃ s',
    scrape cfg w cat lang existing (Some 0) s
    = Some (Ok (jobs_of_pages cfg w cat lang existing
                  (pages_from 1 (Z.to_nat total))), s')
    ∧ goto_urls (drop (length (calls s)) (calls s'))
      = build_jobs_url cfg cat lang <$> pages_from 1 (Z.to_nat total).
Proof.
  intros total Htotal Hpages.
  destruct (scrape_full_walk cfg w cat lang existing (Some 0) s)
    as (s' & Hrun & Hcalls & _); [done|done|].
  change (capped cfg (total_pages_of w (Some (page_at cfg w cat lang 1)))
            (Some 0)) with total in *.
  exists s'. split; [done|].
  rewrite Hcalls, drop_app_length.
  destruct (Z.to_nat total) as [|m] eqn:Hm; [lia|].
  replace (S m - 1)%nat with m by lia.
  change (pages_from 1 (S m)) with (1 :: pages_from 2 m).
  cbn [goto_urls fmap list_fmap]. f_equal.
  apply goto_urls_visit_calls.
Qed.

Lemma scrape_zero_max_pages_is_unlimited_witness :
  ∃ s',
    scrape (Demo.cfg true (Some 1))
      (Demo.world_of (Demo.cfg true (Some 1)) Demo.three_pages)
      None None None (Some 0) initial_state
    = Some (Ok [Demo.job_of "a" "x"; Demo.job_of "b" "x";
                Demo.job_of "c" "x"], s').
Proof.
  destruct (scrape_zero_max_pages_is_unlimited
              (Demo.cfg true (Some 1))
              (Demo.world_of (Demo.cfg true (Some 1)) Demo.three_pages)
              None None None initial_state) as (s' & Hrun & _).
  - vm_compute. discriminate.
  - intros q Hq. change (1 ≤ q ≤ 3) in Hq.
    assert (q = 1 ∨ q = 2 ∨ q = 3) as [-> | [-> | ->]] by lia;
      split; reflexivity.
  - exists s'. exact Hrun.
Defined.

(** * More of the notifier *)

(** ** [send_message] *)

(** What [send_message] does: nothing, or one request to the webhook URL. *)
Lemma send_message_cases self http text blocks sent :
  send_message self http text blocks sent = (false, sent)
  ∨ ∃ url payload,
      webhook_url self = Some url
      ∧ PyStr.startswith url "https://hooks.slack.com" = true
      ∧ payload_text payload = text
      ∧ payload_blocks payload
        = match blocks with Some (b :: bs) => Some (b :: bs) | _ => None end
      ∧ ∃ ok,
          send_message self http text blocks sent
          = (ok, sent ++ [(url, payload)])
          ∧ (ok = true ↔ http url payload = Ok 200).
Proof.
  unfold send_message.
  destruct (webhook_url self) as [[|a url]|] eqn:Hurl;
    [by left| |by left].
  cbv zeta. change (default "" (Some (String a url))) with (String a url).
  destruct (PyStr.startswith (String a url) "https://hooks.slack.com")
    eqn:Hhook; [|by left].
  right.
  exists (String a url),
    {| payload_text := text;
       payload_blocks := match blocks with
                         | Some (b :: bs) => Some (b :: bs)
                         | _ => None
                         end |}.
  split; [done|]. split; [done|]. split; [done|]. split; [done|].
  simpl.
  destruct (http _ _) as [status_code|e] eqn:Hhttp.
  - exists (bool_decide (status_code = 200)). split; [done|].
    rewrite bool_decide_eq_true. split; [by intros ->|by intros [= ->]].
  - exists false. split; [by destruct e|done].
Qed.

(** X11.  [send_message] makes at most one webhook request and only to the
    configured URL, which must start with [https://hooks.slack.com]; with
    no URL or another URL it returns [False] without a request.  It returns
    [True] exactly when the request it made was answered with status 200:
    another status, a timeout, a connection error or any other exception
    gives [False]. *)
Theorem send_message_posts_at_most_once
    (self : SlackNotifier) (http : http_api) (text : string)
    (blocks : option (list block)) (sent : outbox) :
  ∃ ok sent',
    send_message self http text blocks sent = (ok, sent')
    ∧ (sent' = sent
       ∨ ∃ url payload,
           sent' = sent ++ [(url, payload)]
           ∧ webhook_url self = Some url
           ∧ PyStr.startswith url "https://hooks.slack.com" = true
           ∧ payload_text payload = text)
    ∧ (ok = true
       ↔ ∃ url payload,
           sent' = sent ++ [(url, payload)] ∧ http url payload = Ok 200)
    ∧ (PyStr.startswith (default "" (webhook_url self))
         "https://hooks.slack.com" = false →
       ok = false ∧ sent' = sent).
Proof.
  destruct (send_message_cases self http text blocks sent)
    as [Hnone|(url & payload & Hurl & Hhook & Htext & _ & ok & Hsend & Hok)].
  - exists false, sent. split; [done|]. split; [by left|]. split; [|done].
    split; [done|].
    intros (url & payload & Heq & _).
    apply (f_equal length) in Heq. rewrite length_app in Heq.
    simpl in Heq. lia.
  - exists ok, (sent ++ [(url, payload)]).
    split; [done|]. split; [right; by exists url, payload|]. split.
    + rewrite Hok. split.
      * intros H200. by exists url, payload.
      * intros (url' & payload' & Heq & H200).
        apply app_inv_head in Heq. by injection Heq as -> ->.
    + rewrite Hurl. simpl. congruence.
Qed.

Lemma send_message_posts_at_most_once_witness :
  send_message (Demo.notifier (Some "https://example.com/hook")) Demo.http_ok
    "hello" None []
  = (false, []).
Proof.
  destruct (send_message_posts_at_most_once
              (Demo.notifier (Some "https://example.com/hook")) Demo.http_ok
              "hello" None [])
    as (ok & sent' & Hsend & _ & _ & Hbad).
  destruct (Hbad eq_refl) as [-> ->]. exact Hsend.
Defined.

(** ** [format_job_block] *)

Lemma string_prefix_app (p a b : string) :
  String.prefix p a = true → String.prefix p (a +:+ b) = true.
Proof.
  revert a. induction p as [|c p IH]; intros a;
    [intros _; by destruct (a +:+ b)|].
  destruct a as [|d a]; simpl; [done|].
  destruct (ascii_dec c d); [apply IH|done].
Qed.

(** X12.  A translator that is not available, or whose [translate_text]
    raises or gives nothing for the title, leaves the block of a job as it
    is without translator: the original title is shown and no error gets
    out of [format_job_block]. *)
Theorem format_job_block_translator_fallback
    (cfg : settings) (self : SlackNotifier) (tr : translator_api)
    (job_data : job) (index : option nat) :
  translator self = Some tr →
  (is_available tr = false
   ∨ (∃ e, translate_text tr (get_or (title job_data) "N/A") = Raise e)
   ∨ translate_text tr (get_or (title job_data) "N/A") = Ok None
   ∨ translate_text tr (get_or (title job_data) "N/A") = Ok (Some "")) →
  format_job_block cfg self job_data index
  = format_job_block cfg
      {| webhook_url := webhook_url self; translator := None |}
      job_data index.
Proof.
  intros Htr Hfail. unfold format_job_block, translated_title.
  rewrite Htr. simpl.
  destruct Hfail as [->|[[e ->]|[->| ->]]]; [done| | |];
    by destruct (is_available tr).
Qed.

Lemma format_job_block_translator_fallback_witness :
  format_job_block (Demo.cfg true None)
    {| webhook_url := None;
       translator := Some {| is_available := true;
                             translate_text := λ _, Raise OtherException |} |}
    (Demo.job_of "J1" "Acme") None
  = format_job_block (Demo.cfg true None) (Demo.notifier None)
      (Demo.job_of "J1" "Acme") None.
Proof.
  apply (format_job_block_translator_fallback
           (Demo.cfg true None) _
           {| is_available := true;
              translate_text := λ _, Raise OtherException |}).
  - reflexivity.
  - right. left. exists OtherException. reflexivity.
Defined.

(** X13.  A job whose URL is relative (not empty and not starting with
    [http]) is shown as the job with [BASE_URL] put in front of its URL,
    provided [BASE_URL] itself starts with [http]. *)
Theorem format_job_block_resolves_relative_url
    (cfg : settings) (self : SlackNotifier) (job_data : job) (u : string)
    (index : option nat) :
  PyStr.startswith (BASE_URL cfg) "http" = true →
  url job_data = Some u →
  u ≠ "" →
  PyStr.startswith u "http" = false →
  format_job_block cfg self job_data index
  = format_job_block cfg self
      {| job_id := job_id job_data; client_name := client_name job_data;
         title := title job_data; url := Some (BASE_URL cfg +:+ u);
         budget := budget job_data;
         client_country := client_country job_data;
         client_payment_verified := client_payment_verified job_data |}
      index.
Proof.
  intros Hbase Hurl Hne Hrel. unfold format_job_block. simpl.
  rewrite Hurl. simpl.
  assert (PyStr.startswith (BASE_URL cfg +:+ u) "http" = true) as Habs
    by (by apply string_prefix_app).
  rewrite Hrel, Habs.
  destruct u as [|a u]; [done|]. simpl.
  destruct (BASE_URL cfg +:+ String a u) eqn:Hfull; [|done].
  by destruct (BASE_URL cfg).
Qed.

Lemma format_job_block_resolves_relative_url_witness :
  format_job_block (Demo.cfg true None) (Demo.notifier None)
    (Demo.job_of "J1" "Acme") None
  = format_job_block (Demo.cfg true None) (Demo.notifier None)
      {| job_id := Some "J1"; client_name := Some "Acme";
         title := Holds (Some "Job J1");
         url := Some "https://www.workana.com/job/J1";
         budget := None; client_country := None;
         client_payment_verified := None |}
      None.
Proof.
  apply (format_job_block_resolves_relative_url
           (Demo.cfg true None) (Demo.notifier None)
           (Demo.job_of "J1" "Acme") "/job/J1" None).
  - reflexivity.
  - reflexivity.
  - discriminate.
  - reflexivity.
Defined.

(** ** [send_new_jobs] *)

Lemma length_intersperse {A} (sep : A) (l : list A) :
  length (intersperse sep l) = (2 * length l - 1)%nat.
Proof.
  induction l as [|x [|y l] IH]; [done|done|].
  change (intersperse sep (x :: y :: l))
    with (x :: sep :: intersperse sep (y :: l)).
  cbn [length] in *. rewrite IH. lia.
Qed.

(** X14.  The message for [n] new jobs ([n > 0]) has 3 header blocks, a job
    block for each of the first 10 jobs with a divider between two of them,
    one note when [n > 10], and one footer; so it never has more than 24
    blocks, however many jobs are passed. *)
Theorem new_jobs_message_size
    (cfg : settings) (self : SlackNotifier) (new_jobs : list job)
    (total_scraped : option Z) :
  new_jobs ≠ [] →
  length (new_jobs_blocks cfg self new_jobs total_scraped)
  = (3 + (2 * Nat.min 10 (length new_jobs) - 1)
     + (if (10 <? length new_jobs)%nat then 1 else 0) + 1)%nat
  ∧ (length (new_jobs_blocks cfg self new_jobs total_scraped) ≤ 24)%nat.
Proof.
  intros Hne.
  assert (length (new_jobs_blocks cfg self new_jobs total_scraped)
          = (3 + (2 * Nat.min 10 (length new_jobs) - 1)
             + (if (10 <? length new_jobs)%nat then 1 else 0) + 1)%nat)
    as Hlen.
  { unfold new_jobs_blocks.
    rewrite append_job_blocks_intersperse by lia.
    destruct (10 <? length new_jobs)%nat;
      rewrite !length_app, length_intersperse, length_fmap, length_take;
      simpl; lia. }
  split; [done|]. rewrite Hlen.
  destruct (10 <? length new_jobs)%nat; lia.
Qed.

Lemma new_jobs_message_size_witness :
  length (new_jobs_blocks (Demo.cfg true None) (Demo.notifier None)
            (replicate 40 (Demo.job_of "J1" "Acme")) None) = 24%nat.
Proof.
  apply (new_jobs_message_size (Demo.cfg true None) (Demo.notifier None)
           (replicate 40 (Demo.job_of "J1" "Acme")) None).
  discriminate.
Defined.

(** X15.  [send_new_jobs] makes at most one webhook request, however many
    jobs it is given; when it makes one, it goes to the configured URL,
    which starts with [https://hooks.slack.com], and its fallback text
    gives the number of new jobs.  With a non-empty list it returns [True]
    only if it made a request and the request was answered with 200. *)
Theorem send_new_jobs_posts_at_most_once
    (cfg : settings) (self : SlackNotifier) (http : http_api)
    (new_jobs : list job) (total_scraped : option Z) (sent : outbox) :
  ∃ ok sent',
    send_new_jobs cfg self http new_jobs total_scraped sent = (ok, sent')
    ∧ (sent' = sent
       ∨ ∃ url payload,
           sent' = sent ++ [(url, payload)]
           ∧ webhook_url self = Some url
           ∧ PyStr.startswith url "https://hooks.slack.com" = true
           ∧ payload_text payload
             = "Found " +:+ pretty (length new_jobs)
               +:+ " new job(s) on Workana"
           ∧ (ok = true ↔ http url payload = Ok 200))
    ∧ (new_jobs ≠ [] → ok = true → sent' ≠ sent).
Proof.
  unfold send_new_jobs. destruct new_jobs as [|job_data rest].
  { exists true, sent. split; [done|]. split; [by left|done]. }
  destruct (negb (truthy_str (webhook_url self))).
  { exists false, sent. split; [done|]. split; [by left|done]. }
  set (new_jobs := job_data :: rest). cbv zeta.
  destruct (send_message_cases self http
              ("Found " +:+ pretty (length new_jobs)
               +:+ " new job(s) on Workana")
              (Some (new_jobs_blocks cfg self new_jobs total_scraped)) sent)
    as [->|(url & payload & Hurl & Hhook & Htext & _ & ok & -> & Hok)].
  - exists false, sent. split; [done|]. split; [by left|done].
  - exists ok, (sent ++ [(url, payload)]). split; [done|]. split.
    + right. by exists url, payload.
    + intros _ _ Heq. apply (f_equal length) in Heq.
      rewrite length_app in Heq. simpl in Heq. lia.
Qed.

Lemma send_new_jobs_posts_at_most_once_witness :
  ∃ ok sent',
    send_new_jobs (Demo.cfg true None)
      (Demo.notifier (Some "https://hooks.slack.com/services/T0/B0/x"))
      Demo.http_ok (replicate 40 (Demo.job_of "J1" "Acme")) None []
    = (ok, sent')
    ∧ length sent' = 1%nat.
Proof.
  destruct (send_new_jobs_posts_at_most_once
              (Demo.cfg true None)
              (Demo.notifier (Some "https://hooks.slack.com/services/T0/B0/x"))
              Demo.http_ok (replicate 40 (Demo.job_of "J1" "Acme")) None [])
    as (ok & sent' & Hsend & [->|(url & payload & -> & _)] & Hposted).
  - exfalso. apply Hposted; [discriminate| |reflexivity].
    vm_compute in Hsend. by injection Hsend as <-.
  - exists ok, ([] ++ [(url, payload)]). split; [exact Hsend|reflexivity].
Defined.

(** ** [format_job_blocks] *)

Lemma string_app_cons (x : ascii) (a b : string) :
  String x a +:+ b = String x (a +:+ b).
Proof. done. Qed.

Lemma string_app_assoc (a b c : string) : (a +:+ b) +:+ c = a +:+ b +:+ c.
Proof.
  induction a as [|x a IH]; [done|]. by rewrite !string_app_cons, IH.
Qed.

Lemma without_stars_app (a b : string) :
  Re.without_stars (a +:+ b) = Re.without_stars a +:+ Re.without_stars b.
Proof.
  induction a as [|x a IH]; [done|].
  rewrite string_app_cons. cbn [Re.without_stars].
  case_bool_decide; [done|]. by rewrite string_app_cons, IH.
Qed.

Lemma digits_prefix s : ∃ rest, s = Re.digits s +:+ rest.
Proof.
  induction s as [|a s [rest IH]]; [by exists ""|].
  cbn [Re.digits]. destruct (Re.is_digit a); [|by eexists].
  exists rest. rewrite string_app_cons. by f_equal.
Qed.

Lemma fraction_prefix s : ∃ rest, s = Re.fraction s +:+ rest.
Proof.
  unfold Re.fraction.
  destruct s as [|a [|d r]]; [by exists ""| |].
  { exists (String a ""). by destruct a as [[] [] [] [] [] [] [] []]. }
  destruct (decide (a = "."%char)) as [->|Hne].
  - destruct (Re.is_digit d); [|by eexists].
    destruct (digits_prefix r) as [rest Hrest].
    exists rest. rewrite !string_app_cons. by do 2 f_equal.
  - exists (String a (String d r)).
    by destruct a as [[] [] [] [] [] [] [] []].
Qed.

Lemma number_tail_prefix s : ∃ rest, s = Re.number_tail s +:+ rest.
Proof.
  induction s as [|a s [rest IH]]; [by exists ""|].
  cbn [Re.number_tail].
  destruct (Re.is_digit a).
  { exists rest. rewrite string_app_cons. by f_equal. }
  case_bool_decide.
  - destruct s as [|d s]; [by eexists|].
    destruct (Re.is_digit d); [|by eexists].
    exists rest. rewrite string_app_cons. by f_equal.
  - apply fraction_prefix.
Qed.

Lemma sub_from_skip pre rest :
  Re.sub_from (String.length pre) (pre +:+ rest) = Re.sub_from 0 rest.
Proof. induction pre as [|a pre IH]; simpl; [by destruct rest|done]. Qed.

Lemma sub_from_keeps_text n :
  ∀ s, (String.length s < n)%nat →
       Re.without_stars (Re.sub_from 0 s) = Re.without_stars s.
Proof.
  induction n as [|n IH]; intros s Hlen; [lia|].
  destruct s as [|a r]; [done|].
  cbn [Re.sub_from Re.match_number].
  destruct (Re.is_digit a) eqn:Hdigit.
  - destruct (number_tail_prefix r) as [rest Hrest].
    replace (String.length (String a (Re.number_tail r)) - 1)%nat
      with (String.length (Re.number_tail r)) by (simpl; lia).
    pose proof (sub_from_skip (Re.number_tail r) rest) as Hskip.
    rewrite <- Hrest in Hskip. rewrite Hskip.
    assert (Re.without_stars (String a r)
            = Re.without_stars (String a (Re.number_tail r))
              +:+ Re.without_stars rest) as ->.
    { rewrite Hrest at 1. by rewrite <- string_app_cons, without_stars_app. }
    rewrite !without_stars_app.
    change (Re.without_stars "*") with "".
    rewrite IH; [done|].
    apply (f_equal String.length) in Hrest.
    rewrite string_length_app in Hrest. simpl in Hlen. lia.
  - cbn [Re.without_stars]. rewrite IH by (simpl in Hlen; lia). done.
Qed.

Lemma sub_from_no_digit s :
  Forall (λ a, Re.is_digit a = false) (list_ascii_of_string s) →
  Re.sub_from 0 s = s.
Proof.
  induction s as [|a r IH]; [done|]. intros [Ha Hr]%Forall_cons.
  cbn [Re.sub_from Re.match_number]. rewrite Ha. by rewrite IH.
Qed.

(** X16.  Making the numbers of a budget bold only adds asterisks: what
    [format_job_blocks] shows for the budget is the budget itself once the
    asterisks are taken out of both, and a budget without a digit is shown
    as it is. *)
Theorem bold_numbers_only_adds_stars (budget_raw : string) :
  Re.without_stars (Re.bold_numbers budget_raw) = Re.without_stars budget_raw
  ∧ (Forall (λ a, Re.is_digit a = false) (list_ascii_of_string budget_raw) →
     Re.bold_numbers budget_raw = budget_raw).
Proof.
  split.
  - apply (sub_from_keeps_text (S (String.length budget_raw))). lia.
  - apply sub_from_no_digit.
Qed.

Lemma bold_numbers_only_adds_stars_witness :
  Re.bold_numbers "A convenir" = "A convenir".
Proof.
  apply (bold_numbers_only_adds_stars "A convenir").
  repeat constructor.
Defined.

Lemma join_map_last (sep t : string) (parts : list string) :
  parts ≠ [] →
  PyStr.join sep (map_last (λ part, part +:+ t) parts)
  = PyStr.join sep parts +:+ t.
Proof.
  induction parts as [|p [|q parts] IH]; [done|done|]. intros _.
  change (map_last (λ part, part +:+ t) (p :: q :: parts))
    with (p :: map_last (λ part, part +:+ t) (q :: parts)).
  change (PyStr.join sep (p :: q :: parts))
    with (p +:+ sep +:+ PyStr.join sep (q :: parts)).
  rewrite !string_app_assoc, <- IH by done.
  by destruct parts.
Qed.

Lemma join_parts_fmap_Some (sep : string) (parts : list string) :
  join_parts sep (Some <$> parts) = Ok (PyStr.join sep parts).
Proof.
  unfold join_parts.
  assert (mapM (λ part : option string, part) (Some <$> parts) = Some parts)
    as ->; [|done].
  induction parts as [|p parts IH]; [done|].
  cbn [fmap list_fmap mapM]. by rewrite IH.
Qed.

Lemma map_last_fmap_Some (t : string) (parts : list string) :
  map_last (λ part, Some (formatted part +:+ t)) (Some <$> parts)
  = Some <$> map_last (λ part, part +:+ t) parts.
Proof.
  induction parts as [|p [|q parts] IH]; [done|done|].
  change (Some <$> p :: q :: parts)
    with (Some p :: (Some <$> q :: parts)).
  change (map_last (λ part, part +:+ t) (p :: q :: parts))
    with (p :: map_last (λ part, part +:+ t) (q :: parts)).
  cbn [fmap list_fmap]. rewrite <- IH. done.
Qed.

(** X17.  [format_job_blocks] returns exactly one block, or raises the
    [TypeError] of [join].  It raises exactly when the title it is left
    with is [None] (the ['title'] key holds [None] and no translation
    replaces it) and a country or a budget line follows the title; a job
    whose title is absent or a string always gets its block.  The text of
    the block ends with a line break and the divider line; the block
    carries an "Open Job" button exactly when the job has a non-empty URL,
    and the button links to an absolute URL whenever [BASE_URL] is one. *)
Theorem format_job_blocks_one_block
    (cfg : settings) (self : SlackNotifier) (job_data : job)
    (index : option nat) :
  let shown_title := translated_title self (get_or (title job_data) "N/A") in
  let more_lines :=
    truthy_str (client_country job_data) || truthy_str (budget job_data) in
  (shown_title = None → more_lines = true →
   format_job_blocks cfg self job_data index = Raise OtherException)
  ∧ (shown_title ≠ None ∨ more_lines = false →
     ∃ body acc,
       format_job_blocks cfg self job_data index
       = Ok [{| section_text := body +:+ newline +:+ divider_text;
                accessory := acc |}]
       ∧ (acc = None ↔ truthy_str (url job_data) = false)
       ∧ (PyStr.startswith (BASE_URL cfg) "http" = true →
          ∀ b, acc = Some b →
               button_text b = "Open Job"
               ∧ PyStr.startswith (button_url b) "http" = true))
  ∧ (title job_data ≠ Holds None → shown_title ≠ None).
Proof.
  intros shown_title more_lines.
  unfold format_job_blocks. cbv zeta. fold shown_title.
  set (parts := if truthy_str (budget job_data) then _ else _).
  assert (∃ lines, parts = shown_title :: (Some <$> lines)
                   ∧ (lines = [] ↔ more_lines = false))
    as (lines & -> & Hlines).
  { unfold parts, more_lines.
    destruct (truthy_str (budget job_data)),
      (truthy_str (client_country job_data)); cbn [orb].
    - by eexists [_; _].
    - by eexists [_].
    - by eexists [_].
    - by exists []. }
  set (link := if truthy_str (Some (default "" (url job_data))) && _
               then _ else _).
  split; [|split].
  - intros -> Hmore.
    destruct lines as [|line lines].
    { destruct Hlines as [Hnone _]. rewrite Hnone in Hmore; done. }
    reflexivity.
  - intros Hreturns.
    assert (∃ body,
              join_parts newline
                (map_last
                   (λ part,
                      Some (formatted part +:+ newline +:+ divider_text))
                   (shown_title :: (Some <$> lines)))
              = Ok (body +:+ newline +:+ divider_text))
      as [body Hbody].
    { destruct shown_title as [text|] eqn:Htitle.
      - exists (PyStr.join newline (text :: lines)).
        change (Some text :: (Some <$> lines))
          with (Some <$> text :: lines).
        rewrite map_last_fmap_Some, join_parts_fmap_Some.
        f_equal. by apply join_map_last.
      - destruct Hreturns as [?|Hmore]; [done|].
        apply Hlines in Hmore as ->. by exists "None". }
    exists body, (if truthy_str (Some link)
                  then Some {| button_text := "Open Job";
                               button_url := link;
                               action_id := "view_job" |}
                  else None).
    split; [|split].
    + cbv beta iota. rewrite Hbody. reflexivity.
    + unfold link.
      destruct (url job_data) as [[|a u]|]; [done| |done].
      change (default "" (Some (String a u))) with (String a u).
      change (truthy_str (Some (String a u))) with true.
      destruct (PyStr.startswith (String a u) "http"); cbn [negb andb].
      * split; intros; done.
      * destruct (BASE_URL cfg +:+ String a u) eqn:Hfull.
        -- by destruct (BASE_URL cfg).
        -- split; intros; done.
    + intros Hbase b Hb.
      destruct (truthy_str (Some link)) eqn:Hlink; [|done].
      injection Hb as <-. split; [done|]. cbn [button_url].
      unfold link in *.
      destruct (url job_data) as [[|a u]|]; [done| |done].
      change (default "" (Some (String a u))) with (String a u) in *.
      change (truthy_str (Some (String a u))) with true in *.
      destruct (PyStr.startswith (String a u) "http") eqn:Habs;
        cbn [negb andb].
      * done.
      * by apply string_prefix_app.
  - intros Hheld. unfold shown_title, translated_title.
    assert (get_or (title job_data) "N/A" ≠ None) as Horiginal.
    { by destruct (title job_data) as [|[text|]]. }
    destruct (translator self) as [tr|]; [|done].
    destruct (is_available tr); [|done].
    by destruct (translate_text tr _) as [[[|a r]|]|e].
Qed.

Lemma format_job_blocks_one_block_witness :
  format_job_blocks (Demo.cfg true None) (Demo.notifier None)
    {| job_id := Some "J1"; client_name := Some "Acme"; title := Holds None;
       url := Some "/job/J1"; budget := Some "USD 250";
       client_country := None; client_payment_verified := None |}
    None
  = Raise OtherException
  ∧ ∃ body,
      format_job_blocks (Demo.cfg true None) (Demo.notifier None)
        (Demo.job_of "J1" "Acme") None
      = Ok [{| section_text := body +:+ newline +:+ divider_text;
               accessory :=
                 Some {| button_text := "Open Job";
                         button_url := "https://www.workana.com/job/J1";
                         action_id := "view_job" |} |}].
Proof.
  split.
  - destruct (format_job_blocks_one_block
                (Demo.cfg true None) (Demo.notifier None)
                {| job_id := Some "J1"; client_name := Some "Acme";
                   title := Holds None; url := Some "/job/J1";
                   budget := Some "USD 250"; client_country := None;
                   client_payment_verified := None |} None)
      as (Hraise & _ & _).
    apply Hraise; reflexivity.
  - destruct (format_job_blocks_one_block
                (Demo.cfg true None) (Demo.notifier None)
                (Demo.job_of "J1" "Acme") None)
      as (_ & Hblock & Htitle).
    destruct Hblock as (body & acc & Hblocks & _ & _).
    { left. apply Htitle. discriminate. }
    exists body. rewrite Hblocks. do 3 f_equal.
    vm_compute in Hblocks. by injection Hblocks as _ <-.
Defined.

(** * [WorkanaScraper.close] and [cleanup_db.main] *)

(** X18.  After a [close()] that returns, the scraper holds no browser, no
    Playwright and no page, and closing again does nothing: it returns
    without a call on the browser or on Playwright, whatever they would
    answer.  When [self.browser.close()] raises, [close()] raises as well,
    with nothing cleared and Playwright not stopped. *)
Theorem close_is_idempotent
    (browser_close playwright_stop : result ()) (self self' : Driver.handles)
    (made made' : list Driver.driver_call) :
  (Driver.close browser_close playwright_stop self made = (Ok (), self', made') →
   self' = {| Driver.browser := false; Driver.playwright := false;
              Driver.page := false |}
   ∧ ∀ browser_close' playwright_stop',
       Driver.close browser_close' playwright_stop' self' made'
       = (Ok (), self', made'))
  ∧ (∀ e, Driver.browser self = true → browser_close = Raise e →
          Driver.close browser_close playwright_stop self made
          = (Raise e, self, made ++ [Driver.BrowserClose])).
Proof.
  split.
  - unfold Driver.close. intros Hclose.
    assert (self' = {| Driver.browser := false; Driver.playwright := false;
                       Driver.page := false |}) as ->; [|done].
    destruct self as [[] [] pg], browser_close as [[]|e],
      playwright_stop as [[]|e']; simpl in Hclose; congruence.
  - intros e Hbrowser ->. unfold Driver.close. by rewrite Hbrowser.
Qed.

Lemma close_is_idempotent_witness :
  Driver.close (Raise OtherException) (Raise OtherException)
    {| Driver.browser := false; Driver.playwright := false;
       Driver.page := false |}
    [Driver.BrowserClose; Driver.PlaywrightStop]
  = (Ok (),
     {| Driver.browser := false; Driver.playwright := false;
        Driver.page := false |},
     [Driver.BrowserClose; Driver.PlaywrightStop]).
Proof.
  destruct (close_is_idempotent (Ok ()) (Ok ())
              {| Driver.browser := true; Driver.playwright := true;
                 Driver.page := true |}
              {| Driver.browser := false; Driver.playwright := false;
                 Driver.page := false |}
              [] [Driver.BrowserClose; Driver.PlaywrightStop])
    as [Hclosed _].
  destruct (Hclosed eq_refl) as [_ Hagain]. apply Hagain.
Defined.

Local Ltac calls_solver :=
  rewrite ?elem_of_cons, ?elem_of_nil; intuition (discriminate || eauto).

(** X19.  [main] asks the database to clean up exactly when the job count
    it first reads is above [MAX_JOBS_IN_DB]; within the limit its only
    calls are the reading of the count and [close].  When it returns, the
    last call is the one [close] it makes.  When the clean-up raises, the
    exception gets out of [main] and the database is not closed. *)
Theorem main_cleans_only_over_limit
    {S : Type} (MAX_JOBS_IN_DB : Z) (db : CleanupDb.WorkanaDatabase S)
    (st st' : S) (r : result ()) (made : list CleanupDb.db_call) :
  CleanupDb.main MAX_JOBS_IN_DB db st = (r, st', made) →
  (CleanupDb.CleanupOldJobs ∈ made
   ↔ ∃ current_count, (CleanupDb.get_statistics db st).1 = Ok current_count
                      ∧ MAX_JOBS_IN_DB < current_count)
  ∧ (∀ current_count,
       (CleanupDb.get_statistics db st).1 = Ok current_count →
       current_count ≤ MAX_JOBS_IN_DB →
       made = [CleanupDb.GetStatistics; CleanupDb.Close])
  ∧ (r = Ok () →
     ∃ before, made = before ++ [CleanupDb.Close]
               ∧ CleanupDb.Close ∉ before)
  ∧ (∀ e current_count st1,
       CleanupDb.get_statistics db st = (Ok current_count, st1) →
       MAX_JOBS_IN_DB < current_count →
       (CleanupDb.cleanup_old_jobs db st1).1 = Raise e →
       r = Raise e ∧ CleanupDb.Close ∉ made).
Proof.
  unfold CleanupDb.main. intros Hmain.
  destruct (CleanupDb.get_statistics db st) as [[n|e] st1] eqn:Hstats;
    cbn [fst].
  - destruct (n <=? MAX_JOBS_IN_DB) eqn:Hle.
    + apply Z.leb_le in Hle.
      assert (made = [CleanupDb.GetStatistics; CleanupDb.Close]) as ->.
      { destruct (CleanupDb.close db st1) as [[[]|e] st2]; congruence. }
      split; [|split; [done|split]].
      * split; [calls_solver|].
        intros (c & Hc & Hlt). injection Hc as ->. lia.
      * intros _. exists [CleanupDb.GetStatistics]. split; [done|].
        calls_solver.
      * intros e c st2 Hc Hlt. injection Hc as -> _. lia.
    + apply Z.leb_gt in Hle.
      destruct (CleanupDb.cleanup_old_jobs db st1) as [[removed|e] st2]
        eqn:Hclean.
      * assert (CleanupDb.CleanupOldJobs ∈ made
                ∧ (r = Ok () →
                   ∃ before, made = before ++ [CleanupDb.Close]
                             ∧ CleanupDb.Close ∉ before)) as [Hin Hclose].
        { destruct (CleanupDb.get_statistics db st2) as [[n2|e2] st3].
          - assert (made = [CleanupDb.GetStatistics; CleanupDb.CleanupOldJobs;
                            CleanupDb.GetStatistics; CleanupDb.Close]) as ->.
            { destruct (CleanupDb.close db st3) as [[[]|e] st4]; congruence. }
            split; [calls_solver|]. intros _.
            exists [CleanupDb.GetStatistics; CleanupDb.CleanupOldJobs;
                    CleanupDb.GetStatistics].
            split; [done|calls_solver].
          - injection Hmain as <- _ <-. split; [calls_solver|done]. }
        split; [|split; [|split]]; [| |done|].
        -- split; [intros _; by exists n|done].
        -- intros c Hc Hlt. injection Hc as ->. lia.
        -- intros e c st5 Hc _ Hraise. injection Hc as _ <-.
           rewrite Hclean in Hraise. done.
      * injection Hmain as <- _ <-.
        split; [|split; [|split]]; [| |done|].
        -- split; [intros _; by exists n|calls_solver].
        -- intros c Hc Hlt. injection Hc as ->. lia.
        -- intros e' c st5 Hc _ Hraise. injection Hc as _ <-.
           rewrite Hclean in Hraise. simpl in Hraise.
           injection Hraise as ->. split; [done|calls_solver].
  - injection Hmain as <- _ <-.
    split; [|split; [|split]]; [| |done|].
    + split; [calls_solver|]. by intros (c & Hc & _).
    + by intros c Hc.
    + by intros e' c st5 Hc.
Qed.

Lemma main_cleans_only_over_limit_witness :
  (CleanupDb.main 100 CleanupDb.failing_db 150).1.1 = Raise OtherException
  ∧ CleanupDb.Close ∉ (CleanupDb.main 100 CleanupDb.failing_db 150).2.
Proof.
  destruct (main_cleans_only_over_limit 100 CleanupDb.failing_db
              150 150 (Raise OtherException)
              [CleanupDb.GetStatistics; CleanupDb.CleanupOldJobs]
              eq_refl) as (_ & _ & _ & Hraise).
  exact (Hraise OtherException 150 150 eq_refl ltac:(lia) eq_refl).
Defined.
